(** * Real-time collaboration core of the collaborative document editor

    A shallow embedding of
    - the document store ([IStorage], [MemStorage], [DatabaseStorage]; the
      module the server imports as [./storage]),
    - the WebSocket synchronisation server ([setupWebSocketServer]; the
      module imported as [./websocket]),
    - the REST update route ([PATCH /api/documents/:id]; server/routes.ts),
      and, in [Api], the read, delete and collaborator routes and the
      threading of comments of the same file,
    - the client edit history of the [Editor] component
      (client/src/components/document/editor.tsx).

    Conventions.
    - Numeric ids are [Z]; a connection handle ([ws]) is a [nat].
    - A promise that rejects, or a call that throws, is [Rejected]; the
      handlers thread it through the [M] monad below and the [try]/[catch]
      of the message handler turns it into an error reply.
    - Every handler run is atomic: no other event is dispatched between
      two [await]s of the same handler.
    - The timestamps [createdAt]/[updatedAt] of a document are left out;
      nothing in the synchronisation core reads them. *)

From stdpp Require Import gmap strings list.

(** ** Data model (shared/schema.ts) *)

Module User.
Record t := mk {
  id : Z;
  username : string;
  password : option string;
  name : string;
  email : string;
  avatarUrl : option string }.
End User.

Module Document.
Record t := mk {
  id : Z;
  title : string;
  content : option string;   (* text column with a default, nullable *)
  ownerId : Z }.
End Document.

Module Collaborator.
Record t := mk {
  id : Z;
  documentId : Z;
  userId : Z;
  role : string }.             (* 'editor', 'viewer', 'commenter' *)
End Collaborator.

(** [Partial<Document>] as the callers build it: the WebSocket handler
    passes [{ content }], the REST route passes the request body.  [None]
    is an absent field. *)
Module DocumentUpdate.
Record t := mk {
  title : option string;
  content : option string }.
End DocumentUpdate.

(** ** The document store *)

(** Result of an awaited call. *)
Inductive Outcome (A : Type) : Type :=
| Resolved (a : A)
| Rejected.
Arguments Resolved {A} a.
Arguments Rejected {A}.

(** The part of [IStorage] the synchronisation core and the update route
    call.  Reads leave the store as it is; [updateDocument] returns the
    store after the call together with what the promise settled to. *)
Class IStorage (S : Type) := {
  getUser : S → Z → Outcome (option User.t);
  getDocument : S → Z → Outcome (option Document.t);
  updateDocument : S → Z → DocumentUpdate.t → S * Outcome (option Document.t);
  getCollaborators : S → Z → Outcome (list (Collaborator.t * User.t)) }.

Module MemStorage.
(** [collaborators] is a JS [Map], iterated in insertion order by
    [Array.from(values())]: a list of its values in that order.  The id
    counters only serve the create operations and are left out. *)
Record t := mk {
  users : gmap Z User.t;
  documents : gmap Z Document.t;
  collaborators : list Collaborator.t }.

Definition getUser (s : t) (id : Z) : Outcome (option User.t) :=
  Resolved (users s !! id).

Definition getDocument (s : t) (id : Z) : Outcome (option Document.t) :=
  Resolved (documents s !! id).

(** [{ ...document, ...documentUpdate }] *)
Definition spread (document : Document.t) (documentUpdate : DocumentUpdate.t)
  : Document.t :=
  Document.mk
    (Document.id document)
    (default (Document.title document) (DocumentUpdate.title documentUpdate))
    (match DocumentUpdate.content documentUpdate with
     | Some c => Some c
     | None => Document.content document
     end)
    (Document.ownerId document).

Definition updateDocument (s : t) (id : Z) (documentUpdate : DocumentUpdate.t)
  : t * Outcome (option Document.t) :=
  match documents s !! id with
  | None => (s, Resolved None)
  | Some document =>
      let updatedDocument := spread document documentUpdate in
      (mk (users s) (<[id := updatedDocument]> (documents s)) (collaborators s),
       Resolved (Some updatedDocument))
  end.

Definition deleteDocument (s : t) (id : Z) : t * bool :=
  (mk (users s) (delete id (documents s)) (collaborators s),
   bool_decide (is_Some (documents s !! id))).

(** The [map] of [getCollaborators]: throws at the first grant whose user
    is missing. *)
Fixpoint withUsers (us : gmap Z User.t) (cs : list Collaborator.t)
  : Outcome (list (Collaborator.t * User.t)) :=
  match cs with
  | [] => Resolved []
  | collab :: cs' =>
      match us !! Collaborator.userId collab with
      | None => Rejected
      | Some user =>
          match withUsers us cs' with
          | Resolved l => Resolved ((collab, user) :: l)
          | Rejected => Rejected
          end
      end
  end.

Definition getCollaborators (s : t) (documentId : Z)
  : Outcome (list (Collaborator.t * User.t)) :=
  withUsers (users s)
    (filter (λ collab, Collaborator.documentId collab = documentId)
            (collaborators s)).
End MemStorage.

#[export] Instance MemStorage_IStorage : IStorage MemStorage.t := {
  getUser := MemStorage.getUser;
  getDocument := MemStorage.getDocument;
  updateDocument := MemStorage.updateDocument;
  getCollaborators := MemStorage.getCollaborators }.

(** ** The WebSocket synchronisation server (server/websocket.ts) *)

Definition conn := nat.

(** [ws.readyState] *)
Inductive ReadyState := CONNECTING | OPEN | CLOSING | CLOSED.

#[export] Instance ReadyState_eq_dec : EqDecision ReadyState.
Proof. solve_decision. Defined.

(** A JSON value the server forwards without looking into it, as text. *)
Definition Json := string.

Module Client.
Record t := mk {
  userId : Z;
  documentId : Z;
  ws : conn }.
End Client.

Module CursorPosition.
Record t := mk {
  userId : Z;
  username : string;
  name : string;
  position : Json }.
End CursorPosition.

Module ActiveUser.
Record t := mk {
  userId : Z;
  username : string;
  name : string }.
End ActiveUser.

(** The types the message handler dispatches on. *)
Definition known_type (type : string) : bool :=
  bool_decide (type = "auth") || bool_decide (type = "document_edit")
  || bool_decide (type = "cursor_position").

(** [data] after [JSON.parse]: the three handled shapes with the fields
    the handler destructures, and any other value, whose [type] (if it
    has one) is none of the three. *)
Inductive Data :=
| auth (userId documentId : Z)
| document_edit (documentId : Z) (content : string)
    (cursorPosition : option CursorPosition.t)
| cursor_position (position : Json)
| other (type : option string)
    (unhandled : from_option known_type false type = false).

(** An incoming frame: [JSON.parse] throws on it (or yields [null],
    whose [type] cannot be read: the same [catch]), or yields [data]. *)
Inductive Message :=
| Unparseable
| Parsed (data : Data).

(** Server-to-client messages. *)
Inductive ServerMsg :=
| error (message : string)
| user_joined (userId : Z) (username name : string)
| document_data (documentId : Z) (content : option string)
| active_users (users : list ActiveUser.t)
| document_update (documentId : Z) (content : string) (updatedBy : Z)
    (cursorPosition : option CursorPosition.t)
| cursor_update (userId : Z) (username name : string) (position : Json)
| user_left (userId : Z).


Definition is_document_update (m : ServerMsg) : bool :=
  match m with document_update _ _ _ _ => true | _ => false end.

(** What the server does to the outside, in order: [ws.send] calls and
    calls of [storage.updateDocument]. *)
Inductive Event :=
| Send (ws : conn) (m : ServerMsg)
| Persist (documentId : Z) (documentUpdate : DocumentUpdate.t).

Definition sent_to (ws : conn) (tr : list Event) : list ServerMsg :=
  omap (λ e, match e with
             | Send ws' m => if decide (ws' = ws) then Some m else None
             | Persist _ _ => None
             end) tr.

Definition is_send_update (e : Event) : bool :=
  match e with Send _ m => is_document_update m | Persist _ _ => false end.

Module Server.
(** [clients] is the array shared by all connections; [clientInfo] is
    the variable each connection handler closes over ([null] when the
    connection is not in the map); [readyState] belongs to the
    transport and no handler writes it. *)
Record t (S : Type) := mk {
  clients : list Client.t;
  clientInfo : gmap conn Client.t;
  readyState : conn → ReadyState;
  storage : S;
  trace : list Event }.
Arguments mk {S}.
Arguments clients {S}.
Arguments clientInfo {S}.
Arguments readyState {S}.
Arguments storage {S}.
Arguments trace {S}.

(** State of [setupWebSocketServer] before any connection. *)
Definition init {S} (readyState : conn → ReadyState) (storage : S) : t S :=
  mk [] ∅ readyState storage [].

(** The transport of [ws] moves to state [r]. *)
Definition transport {S} (ws : conn) (r : ReadyState) (st : t S) : t S :=
  mk (clients st) (clientInfo st)
     (λ c, if decide (c = ws) then r else readyState st c)
     (storage st) (trace st).

(** The store is replaced by [s] (something else wrote to it). *)
Definition with_storage {S} (s : S) (st : t S) : t S :=
  mk (clients st) (clientInfo st) (readyState st) s (trace st).
End Server.

Section WebSocketServer.
Context {S : Type} `{IStorage S}.

Abbreviation Server := (Server.t S).

(** Handler code: state passing, with [Rejected] for a thrown error. *)
Definition M (A : Type) : Type := Server → Server * Outcome A.

Definition ret {A} (a : A) : M A := λ st, (st, Resolved a).

Definition bind {A B} (m : M A) (k : A → M B) : M B :=
  λ st, match m st with
        | (st', Resolved a) => k a st'
        | (st', Rejected) => (st', Rejected)
        end.

Definition throw {A} : M A := λ st, (st, Rejected).

Notation "'let*' x ':=' m 'in' k" := (bind m (λ x, k))
  (at level 10, x name, m at level 100, k at level 200, only parsing).
Notation "m '>>' k" := (bind m (λ _, k))
  (at level 100, k at level 200, right associativity, only parsing).

Definition emit (e : Event) : M unit :=
  λ st, (Server.mk (Server.clients st) (Server.clientInfo st)
           (Server.readyState st) (Server.storage st)
           (Server.trace st ++ [e]), Resolved ()).

(** [ws.send(JSON.stringify(m))] *)
Definition ws_send (ws : conn) (m : ServerMsg) : M unit := emit (Send ws m).

(** [await storage.f(...)] for a read. *)
Definition await {A} (f : S → Outcome A) : M A :=
  λ st, (st, f (Server.storage st)).

(** [await storage.updateDocument(id, u)] *)
Definition await_updateDocument (id : Z) (u : DocumentUpdate.t)
  : M (option Document.t) :=
  emit (Persist id u) >>
  λ st, let '(s', r) := updateDocument (Server.storage st) id u in
        (Server.mk (Server.clients st) (Server.clientInfo st)
           (Server.readyState st) s' (Server.trace st), r).

Definition get_clientInfo (ws : conn) : M (option Client.t) :=
  λ st, (st, Resolved (Server.clientInfo st !! ws)).

Definition set_clientInfo (ws : conn) (info : Client.t) : M unit :=
  λ st, (Server.mk (Server.clients st) (<[ws := info]> (Server.clientInfo st))
           (Server.readyState st) (Server.storage st) (Server.trace st),
         Resolved ()).

Definition get_clients : M (list Client.t) :=
  λ st, (st, Resolved (Server.clients st)).

Definition set_clients (l : list Client.t) : M unit :=
  λ st, (Server.mk l (Server.clientInfo st) (Server.readyState st)
           (Server.storage st) (Server.trace st), Resolved ()).

(** The clients [broadcastToDocument] writes to. *)
Definition recipients (st : Server) (documentId : Z) (excludeWs : option conn)
  : list Client.t :=
  filter (λ client,
            Client.documentId client = documentId
            ∧ Some (Client.ws client) ≠ excludeWs
            ∧ Server.readyState st (Client.ws client) = OPEN)
         (Server.clients st).

Definition broadcastToDocument (documentId : Z) (data : ServerMsg)
    (excludeWs : option conn) : M unit :=
  λ st, (Server.mk (Server.clients st) (Server.clientInfo st)
           (Server.readyState st) (Server.storage st)
           (Server.trace st
              ++ ((λ client, Send (Client.ws client) data)
                    <$> recipients st documentId excludeWs)),
         Resolved ()).

(** [Promise.all] over the users of the clients on the document, in
    order; [null]s filtered out afterwards. *)
Fixpoint resolveUsers (s : S) (l : list Client.t)
  : Outcome (list ActiveUser.t) :=
  match l with
  | [] => Resolved []
  | client :: l' =>
      match getUser s (Client.userId client), resolveUsers s l' with
      | Resolved (Some user), Resolved us =>
          Resolved (ActiveUser.mk (User.id user) (User.username user)
                      (User.name user) :: us)
      | Resolved None, Resolved us => Resolved us
      | _, _ => Rejected
      end
  end.

(** The roster sent as [active_users]. *)
Definition listActive (st : Server) (documentId : Z)
  : Outcome (list ActiveUser.t) :=
  resolveUsers (Server.storage st)
    (filter (λ client, Client.documentId client = documentId)
            (Server.clients st)).

(** [ws.on('message', ...)]: the body of the [try] block. *)
Definition handle (ws : conn) (message : Message) : M unit :=
  let* data := (match message with
                | Unparseable => throw
                | Parsed data => ret data
                end) in
  match data with
  | auth userId documentId =>
      let* user := await (λ s, getUser s userId) in
      match user with
      | None => ws_send ws (error "User not found")
      | Some user =>
          let* document := await (λ s, getDocument s documentId) in
          match document with
          | None => ws_send ws (error "Document not found")
          | Some document =>
              let isOwner := bool_decide (Document.ownerId document = userId) in
              let* hasAccess :=
                (if isOwner then ret true
                 else
                   let* collaborators :=
                     await (λ s, getCollaborators s documentId) in
                   ret (bool_decide
                          (Exists (λ collab,
                                     Collaborator.userId collab.1 = userId)
                                  collaborators))) in
              if negb hasAccess
              then ws_send ws (error "No access to document")
              else
                let clientInfo := Client.mk userId documentId ws in
                set_clientInfo ws clientInfo >>
                let* clients := get_clients in
                set_clients (clients ++ [clientInfo]) >>
                broadcastToDocument documentId
                  (user_joined userId (User.username user) (User.name user))
                  (Some ws) >>
                ws_send ws
                  (document_data documentId (Document.content document)) >>
                let* resolvedUsers := (λ st, (st, listActive st documentId)) in
                ws_send ws (active_users resolvedUsers)
          end
      end
  | document_edit documentId content cursorPosition =>
      let* clientInfo := get_clientInfo ws in
      match clientInfo with
      | None => ws_send ws (error "Not authenticated")
      | Some clientInfo =>
          if bool_decide (documentId ≠ Client.documentId clientInfo)
          then ws_send ws (error "Invalid document ID")
          else
            await_updateDocument documentId
              (DocumentUpdate.mk None (Some content)) >>
            broadcastToDocument documentId
              (document_update documentId content (Client.userId clientInfo)
                 cursorPosition)
              (Some ws)
      end
  | cursor_position position =>
      let* clientInfo := get_clientInfo ws in
      match clientInfo with
      | None => ws_send ws (error "Not authenticated")
      | Some clientInfo =>
          let* user := await (λ s, getUser s (Client.userId clientInfo)) in
          match user with
          | None => ws_send ws (error "User not found")
          | Some user =>
              broadcastToDocument (Client.documentId clientInfo)
                (cursor_update (User.id user) (User.username user)
                   (User.name user) position)
                (Some ws)
          end
      end
  | other _ _ => ret ()
  end.

(** The whole handler: [try { ... } catch { ws.send(error) }]. *)
Definition onMessage (ws : conn) (message : Message) (st : Server) : Server :=
  match handle ws message st with
  | (st', Resolved _) => st'
  | (st', Rejected) =>
      (ws_send ws (error "Invalid message format") st').1
  end.

(** [ws.on('close', ...)] *)
Definition onClose (ws : conn) (st : Server) : Server :=
  match Server.clientInfo st !! ws with
  | None => st
  | Some clientInfo =>
      match list_find (λ c, Client.userId c = Client.userId clientInfo
                            ∧ Client.documentId c = Client.documentId clientInfo)
                      (Server.clients st) with
      | None => st
      | Some (index, _) =>
          (broadcastToDocument (Client.documentId clientInfo)
             (user_left (Client.userId clientInfo)) None
             (Server.mk (delete index (Server.clients st))
                (Server.clientInfo st) (Server.readyState st)
                (Server.storage st) (Server.trace st))).1
      end
  end.

(** The two ways the [auth] branch grants access, as facts about the
    store: the document exists and the user owns it; the grants of the
    document can be read and one of them is the user's. *)
Definition isOwner (s : S) (userId documentId : Z) : Prop :=
  ∃ document, getDocument s documentId = Resolved (Some document)
              ∧ Document.ownerId document = userId.

Definition isCollaborator (s : S) (userId documentId : Z) : Prop :=
  ∃ collaborators, getCollaborators s documentId = Resolved collaborators
                   ∧ Exists (λ collab, Collaborator.userId collab.1 = userId)
                            collaborators.

(** The state after the [user_left] broadcast of the close handler. *)
Definition broadcast_left (info : Client.t) (st : Server) : Server :=
  (broadcastToDocument (Client.documentId info)
     (user_left (Client.userId info)) None st).1.

(** What a handler run added to the trace. *)
Definition emitted (st st' : Server) : list Event :=
  drop (length (Server.trace st)) (Server.trace st').

End WebSocketServer.

(** ** The REST update route (server/routes.ts, PATCH /api/documents/:id) *)

Module Routes.

Inductive Response :=
| json_message (status : Z) (message : string)
| json_document (updatedDocument : option Document.t).

Section Patch.
Context {S : Type} `{IStorage S}.

(** The edit check of the route: owner, or a collaborator whose role is
    not ['viewer'].  [find] takes the first grant of the user. *)
Definition mayEdit (s : S) (documentId : Z) (document : Document.t)
    (userId : Z) : Outcome bool :=
  if bool_decide (Document.ownerId document = userId) then Resolved true
  else
    match getCollaborators s documentId with
    | Rejected => Rejected
    | Resolved collaborators =>
        match list_find (λ collab, Collaborator.userId collab.1 = userId)
                        collaborators with
        | None => Resolved false
        | Some (_, userCollaborator) =>
            Resolved
              (negb (bool_decide
                       (Collaborator.role userCollaborator.1 = "viewer")))
        end
    end.

(** [req_user] is [None] when [req.isAuthenticated()] is false;
    [documentId] is [None] when [parseInt(req.params.id)] is [NaN]. *)
Definition patchDocument (req_user : option User.t) (documentId : option Z)
    (body : DocumentUpdate.t) (s : S) : S * Response :=
  match req_user, documentId with
  | None, _ => (s, json_message 401 "Not authenticated")
  | Some _, None => (s, json_message 400 "Invalid document ID")
  | Some user, Some documentId =>
      match getDocument s documentId with
      | Rejected => (s, json_message 500 "Error updating document")
      | Resolved None => (s, json_message 404 "Document not found")
      | Resolved (Some document) =>
          match mayEdit s documentId document (User.id user) with
          | Rejected => (s, json_message 500 "Error updating document")
          | Resolved false =>
              (s, json_message 403 "No permission to edit this document")
          | Resolved true =>
              match updateDocument s documentId body with
              | (s', Resolved updatedDocument) =>
                  (s', json_document updatedDocument)
              | (s', Rejected) =>
                  (s', json_message 500 "Error updating document")
              end
          end
      end
  end.

End Patch.
End Routes.

(** ** The client edit history (components/document/editor.tsx) *)

Module Editor.

(** A string is truthy when it is not empty; [null] is falsy. *)
Definition truthy (content : option string) : bool :=
  match content with
  | Some s => negb (bool_decide (s = ""))
  | None => false
  end.

(** The React state of the component that the history code reads and
    writes, the [isUndoRedoAction] ref, and the [innerHTML] of the
    mounted editor element.  [sendMessage] and [onContentChange] do not
    touch any of these; the [document] prop stays the same while the
    component is mounted.  The field [innerHTML] is what reading the
    element's [innerHTML] returns. *)
Record t := mk {
  content : option string;
  undoStack : list string;
  redoStack : list string;
  isUndoRedoAction : bool;
  innerHTML : string }.

Section Dom.

(** The browser's side of [innerHTML]: assigning [s] parses it into the
    element, and reading the element afterwards returns [serialize s],
    the serialisation of what was parsed, which need not be [s] (an
    unclosed tag comes back closed).  The state variables keep the
    string that was assigned; only a later read sees the serialisation. *)
Variable serialize : string → string.

(** State after mounting on a document: the [useState] initial values and
    the two effects keyed on [docData.id]. *)
Definition mount (docData_content : option string) : t :=
  match docData_content with
  | Some c =>
      if truthy (Some c) then mk (Some c) [c] [] false (serialize c)
      else mk (Some c) [] [] false ""
  | None => mk None [] [] false ""
  end.

(** [handleInput], run in the closure of the render [render] on the
    pending state [st]: [content] is read from the closure, the ref and
    the DOM are read live, and the state updates are queued on [st]. *)
Definition handleInput (render st : t) : t :=
  let newContent := innerHTML st in
  let st1 :=
    match content render with
    | Some validContent =>
        if negb (isUndoRedoAction st) && truthy (Some validContent)
        then mk (content st) (undoStack st ++ [validContent]) []
                (isUndoRedoAction st) (innerHTML st)
        else mk (content st) (undoStack st) (redoStack st) false (innerHTML st)
    | None => mk (content st) (undoStack st) (redoStack st) false (innerHTML st)
    end in
  mk (Some newContent) (undoStack st1) (redoStack st1) (isUndoRedoAction st1)
     (innerHTML st1).

(** A local edit: the browser changes the element, which now reads
    [newHTML], and fires [onInput]. *)
Definition edit (newHTML : string) (st : t) : t :=
  let typed := mk (content st) (undoStack st) (redoStack st)
                  (isUndoRedoAction st) newHTML in
  handleInput typed typed.

(** [handleFormat('undo')] *)
Definition undo (st : t) : t :=
  let st1 :=
    match last (undoStack st) with
    | None => st                              (* undoStack.length = 0 *)
    | Some previousState =>
        let newUndoStack := removelast (undoStack st) in
        let redoStack1 :=
          match content st with
          | Some validContent =>
              if truthy (Some validContent)
              then redoStack st ++ [validContent] else redoStack st
          | None => redoStack st
          end in
        if truthy (Some previousState)
        then mk (Some previousState) newUndoStack redoStack1 true
                (serialize previousState)
        else mk (content st) (undoStack st) redoStack1 true (innerHTML st)
    end in
  handleInput st st1.

(** [handleFormat('redo')] *)
Definition redo (st : t) : t :=
  let st1 :=
    match last (redoStack st) with
    | None => st                              (* redoStack.length = 0 *)
    | Some nextState =>
        let newRedoStack := removelast (redoStack st) in
        let undoStack1 :=
          match content st with
          | Some validContent =>
              if truthy (Some validContent)
              then undoStack st ++ [validContent] else undoStack st
          | None => undoStack st
          end in
        if truthy (Some nextState)
        then mk (Some nextState) undoStack1 newRedoStack true
                (serialize nextState)
        else mk (content st) undoStack1 (redoStack st) true (innerHTML st)
    end in
  handleInput st st1.

End Dom.

Definition canUndo (st : t) : bool := bool_decide (0 < length (undoStack st)).
Definition canRedo (st : t) : bool := bool_decide (0 < length (redoStack st)).

(** The edits [E1..En] applied in order. *)
Definition edits (l : list string) (st : t) : t :=
  foldl (λ st newHTML, edit newHTML st) st l.

End Editor.

(** ** The production store (DatabaseStorage in server/storage.ts) *)

Module DatabaseStorage.

(** The three tables, and whether the pool reaches the database: every
    query of an unreachable database rejects. *)
Record t := mk {
  tables : MemStorage.t;
  reachable : bool }.

Definition query {A} (s : t) (f : MemStorage.t → A) : Outcome A :=
  if reachable s then Resolved (f (tables s)) else Rejected.

Definition getUser (s : t) (id : Z) : Outcome (option User.t) :=
  query s (λ db, MemStorage.users db !! id).

Definition getDocument (s : t) (id : Z) : Outcome (option Document.t) :=
  query s (λ db, MemStorage.documents db !! id).

Definition updateDocument (s : t) (id : Z) (documentUpdate : DocumentUpdate.t)
  : t * Outcome (option Document.t) :=
  if reachable s then
    let '(db, r) := MemStorage.updateDocument (tables s) id documentUpdate in
    (mk db true, r)
  else (s, Rejected).

(** Grants whose user row is missing are skipped, not an error. *)
Definition getCollaborators (s : t) (documentId : Z)
  : Outcome (list (Collaborator.t * User.t)) :=
  query s (λ db,
    omap (λ collab,
            (λ user, (collab, user))
              <$> MemStorage.users db !! Collaborator.userId collab)
         (filter (λ collab, Collaborator.documentId collab = documentId)
                 (MemStorage.collaborators db))).

End DatabaseStorage.

#[export] Instance DatabaseStorage_IStorage : IStorage DatabaseStorage.t := {
  getUser := DatabaseStorage.getUser;
  getDocument := DatabaseStorage.getDocument;
  updateDocument := DatabaseStorage.updateDocument;
  getCollaborators := DatabaseStorage.getCollaborators }.

(** ** A small deployment used in the examples *)

Module Scenario.

Definition alice : User.t :=
  User.mk 1 "alice" None "Alice" "alice@example.org" None.
Definition bob : User.t :=
  User.mk 2 "bob" None "Bob" "bob@example.org" None.
Definition carol : User.t :=
  User.mk 3 "carol" None "Carol" "carol@example.org" None.

(** Document 1 belongs to alice; bob holds a ['viewer'] grant on it;
    carol has nothing to do with it. *)
Definition notes : Document.t := Document.mk 1 "Notes" (Some "original") 1.

Definition store_with_role (role : string) : MemStorage.t :=
  MemStorage.mk {[ 1%Z := alice; 2%Z := bob; 3%Z := carol ]}
                {[ 1%Z := notes ]}
                [Collaborator.mk 1 1 2 role].

Definition store : MemStorage.t := store_with_role "viewer".

Definition all_open : conn → ReadyState := λ _, OPEN.

(** alice on connection 0 and bob on connection 1, both on document 1. *)
Definition participants (s : MemStorage.t) : Server.t MemStorage.t :=
  onMessage 1 (Parsed (auth 2 1))
    (onMessage 0 (Parsed (auth 1 1)) (Server.init all_open s)).

Definition two_participants : Server.t MemStorage.t := participants store.

(** alice in two tabs (connections 0 and 1) and bob on connection 2, all
    on document 1; then the transport of connection 1 goes down. *)
Definition two_tabs : Server.t MemStorage.t :=
  Server.transport 1 CLOSED
    (onMessage 2 (Parsed (auth 2 1))
       (onMessage 1 (Parsed (auth 1 1))
          (onMessage 0 (Parsed (auth 1 1)) (Server.init all_open store)))).

(** The same database, out of reach. *)
Definition unreachable : DatabaseStorage.t := DatabaseStorage.mk store false.

Definition two_participants_offline : Server.t DatabaseStorage.t :=
  Server.mk (Server.clients two_participants)
            (Server.clientInfo two_participants)
            all_open unreachable [].

End Scenario.


(** ** More of the stores: grants, shared documents, creation *)

(** What the collaborator and delete routes need beyond [IStorage].
    [collaboratorsField] is the property read [(storage as any).collaborators]
    of the collaborator routes: the values of the map when the object has
    such a field, [None] when it has not. *)
Class IStorageAdmin (S : Type) := {
  deleteDocument : S → Z → S * Outcome bool;
  updateCollaboratorRole :
    S → Z → string → S * Outcome (option Collaborator.t);
  removeCollaborator : S → Z → S * Outcome bool;
  collaboratorsField : S → option (list Collaborator.t) }.

Module InsertDocument.
Record t := mk {
  title : string;
  content : option string;
  ownerId : Z }.
End InsertDocument.

Module InsertCollaborator.
Record t := mk {
  documentId : Z;
  userId : Z;
  role : string }.
End InsertCollaborator.

Module MemStorageOps.

(** [{ ...collaborator, role }] *)
Definition withRole (collaborator : Collaborator.t) (role : string)
  : Collaborator.t :=
  Collaborator.mk (Collaborator.id collaborator)
    (Collaborator.documentId collaborator) (Collaborator.userId collaborator)
    role.

(** The entry of the [collaborators] map under key [id]: entries are
    keyed by their own id. *)
Definition findCollaborator (s : MemStorage.t) (id : Z)
  : option (nat * Collaborator.t) :=
  list_find (λ collab, Collaborator.id collab = id) (MemStorage.collaborators s).

Definition updateCollaboratorRole (s : MemStorage.t) (id : Z) (role : string)
  : MemStorage.t * Outcome (option Collaborator.t) :=
  match findCollaborator s id with
  | None => (s, Resolved None)
  | Some (i, collaborator) =>
      let updatedCollaborator := withRole collaborator role in
      (MemStorage.mk (MemStorage.users s) (MemStorage.documents s)
         (<[i := updatedCollaborator]> (MemStorage.collaborators s)),
       Resolved (Some updatedCollaborator))
  end.

Definition removeCollaborator (s : MemStorage.t) (id : Z)
  : MemStorage.t * Outcome bool :=
  match findCollaborator s id with
  | None => (s, Resolved false)
  | Some (i, _) =>
      (MemStorage.mk (MemStorage.users s) (MemStorage.documents s)
         (delete i (MemStorage.collaborators s)),
       Resolved true)
  end.

(** The documents of the user's grants, in the order of the grants;
    grants on documents that are gone are skipped. *)
Definition getSharedDocuments (s : MemStorage.t) (userId : Z)
  : list Document.t :=
  omap (λ collab, MemStorage.documents s !! Collaborator.documentId collab)
       (filter (λ collab, Collaborator.userId collab = userId)
               (MemStorage.collaborators s)).

(** [createDocument]: the id counter of the object is passed in and
    handed back incremented. *)
Definition createDocument (s : MemStorage.t) (documentIdCounter : Z)
    (insertDocument : InsertDocument.t) : MemStorage.t * Z * Document.t :=
  let id := documentIdCounter in
  let document :=
    Document.mk id (InsertDocument.title insertDocument)
      (InsertDocument.content insertDocument)
      (InsertDocument.ownerId insertDocument) in
  (MemStorage.mk (MemStorage.users s)
     (<[id := document]> (MemStorage.documents s))
     (MemStorage.collaborators s),
   (documentIdCounter + 1)%Z, document).

(** [addCollaborator]: a new key goes to the end of the map. *)
Definition addCollaborator (s : MemStorage.t) (collaboratorIdCounter : Z)
    (insertCollaborator : InsertCollaborator.t)
  : MemStorage.t * Z * Collaborator.t :=
  let id := collaboratorIdCounter in
  let collaborator :=
    Collaborator.mk id (InsertCollaborator.documentId insertCollaborator)
      (InsertCollaborator.userId insertCollaborator)
      (InsertCollaborator.role insertCollaborator) in
  (MemStorage.mk (MemStorage.users s) (MemStorage.documents s)
     (MemStorage.collaborators s ++ [collaborator]),
   (collaboratorIdCounter + 1)%Z, collaborator).

(** The ids handed out so far lie below the counters. *)
Definition ids_below (s : MemStorage.t)
    (documentIdCounter collaboratorIdCounter : Z) : Prop :=
  (∀ id document, MemStorage.documents s !! id = Some document →
                  (id < documentIdCounter)%Z)
  ∧ Forall (λ collab, (Collaborator.id collab < collaboratorIdCounter)%Z)
           (MemStorage.collaborators s).

End MemStorageOps.

#[export] Instance MemStorage_IStorageAdmin : IStorageAdmin MemStorage.t := {
  deleteDocument s id :=
    let '(s', existed) := MemStorage.deleteDocument s id in
    (s', Resolved existed);
  updateCollaboratorRole := MemStorageOps.updateCollaboratorRole;
  removeCollaborator := MemStorageOps.removeCollaborator;
  collaboratorsField s := Some (MemStorage.collaborators s) }.

Module DatabaseStorageOps.

Definition deleteDocument (s : DatabaseStorage.t) (id : Z)
  : DatabaseStorage.t * Outcome bool :=
  if DatabaseStorage.reachable s then
    let '(db, existed) :=
      MemStorage.deleteDocument (DatabaseStorage.tables s) id in
    (DatabaseStorage.mk db true, Resolved existed)
  else (s, Rejected).

(** [update ... where id = ... returning]: every matching row is
    rewritten, the first one returned. *)
Definition updateCollaboratorRole (s : DatabaseStorage.t) (id : Z)
    (role : string) : DatabaseStorage.t * Outcome (option Collaborator.t) :=
  if DatabaseStorage.reachable s then
    let db := DatabaseStorage.tables s in
    let rows :=
      (λ collab, if decide (Collaborator.id collab = id)
                 then MemStorageOps.withRole collab role else collab)
        <$> MemStorage.collaborators db in
    (DatabaseStorage.mk
       (MemStorage.mk (MemStorage.users db) (MemStorage.documents db) rows)
       true,
     Resolved (head (filter (λ collab, Collaborator.id collab = id) rows)))
  else (s, Rejected).

Definition removeCollaborator (s : DatabaseStorage.t) (id : Z)
  : DatabaseStorage.t * Outcome bool :=
  if DatabaseStorage.reachable s then
    let db := DatabaseStorage.tables s in
    (DatabaseStorage.mk
       (MemStorage.mk (MemStorage.users db) (MemStorage.documents db)
          (filter (λ collab, Collaborator.id collab ≠ id)
                  (MemStorage.collaborators db)))
       true,
     Resolved (bool_decide
                 (Exists (λ collab, Collaborator.id collab = id)
                         (MemStorage.collaborators db))))
  else (s, Rejected).

End DatabaseStorageOps.

(** The [DatabaseStorage] object has no [collaborators] property. *)
#[export] Instance DatabaseStorage_IStorageAdmin
  : IStorageAdmin DatabaseStorage.t := {
  deleteDocument := DatabaseStorageOps.deleteDocument;
  updateCollaboratorRole := DatabaseStorageOps.updateCollaboratorRole;
  removeCollaborator := DatabaseStorageOps.removeCollaborator;
  collaboratorsField _ := None }.

(** ** More REST routes (server/routes.ts) *)

Module Api.

Inductive Response :=
| message (status : Z) (text : string)
| document_with_collaborators (document : Document.t)
    (collaborators : list (Collaborator.t * User.t))
| collaborator_json (updatedCollaborator : option Collaborator.t)
| no_content.                                (* status 204 *)

(** ['editor', 'viewer', 'commenter'].includes(role) *)
Definition validRole (role : option string) : bool :=
  match role with
  | Some r => bool_decide (r ∈ ["editor"; "viewer"; "commenter"])
  | None => false
  end.

Section Routes.
Context {S : Type} `{IStorage S} `{IStorageAdmin S}.

(** GET /api/documents/:id *)
Definition getDocumentRoute (req_user : option User.t) (documentId : option Z)
    (s : S) : Response :=
  match req_user, documentId with
  | None, _ => message 401 "Not authenticated"
  | Some _, None => message 400 "Invalid document ID"
  | Some user, Some documentId =>
      match getDocument s documentId with
      | Rejected => message 500 "Error fetching document"
      | Resolved None => message 404 "Document not found"
      | Resolved (Some document) =>
          let userId := User.id user in
          let isOwner := bool_decide (Document.ownerId document = userId) in
          let check :=
            if isOwner then Resolved true
            else match getCollaborators s documentId with
                 | Rejected => Rejected
                 | Resolved collaborators =>
                     Resolved (bool_decide
                                 (Exists (λ collab,
                                     Collaborator.userId collab.1 = userId)
                                    collaborators))
                 end in
          match check with
          | Rejected => message 500 "Error fetching document"
          | Resolved false =>
              message 403 "No permission to access this document"
          | Resolved true =>
              match getCollaborators s documentId with
              | Rejected => message 500 "Error fetching document"
              | Resolved collaborators =>
                  document_with_collaborators document collaborators
              end
          end
      end
  end.

(** DELETE /api/documents/:id *)
Definition deleteDocumentRoute (req_user : option User.t)
    (documentId : option Z) (s : S) : S * Response :=
  match req_user, documentId with
  | None, _ => (s, message 401 "Not authenticated")
  | Some _, None => (s, message 400 "Invalid document ID")
  | Some user, Some documentId =>
      match getDocument s documentId with
      | Rejected => (s, message 500 "Error deleting document")
      | Resolved None => (s, message 404 "Document not found")
      | Resolved (Some document) =>
          if bool_decide (Document.ownerId document ≠ User.id user)
          then (s, message 403 "Only the owner can delete this document")
          else
            match deleteDocument s documentId with
            | (s', Resolved _) => (s', no_content)
            | (s', Rejected) => (s', message 500 "Error deleting document")
            end
      end
  end.

(** The common part of the two collaborator routes: find the grant in
    the store's [collaborators] field and check that the requester owns
    its document; the two routes differ in the texts of their errors. *)
Definition ownedCollaborator (user : User.t) (collaboratorId : Z)
    (error403 error500 : string) (s : S) : Response + Collaborator.t :=
  match collaboratorsField s with
  | None => inl (message 500 error500)       (* reading [.values] throws *)
  | Some allCollaborators =>
      match list_find (λ c, Collaborator.id c = collaboratorId)
                      allCollaborators with
      | None => inl (message 404 "Collaborator not found")
      | Some (_, collaborator) =>
          match getDocument s (Collaborator.documentId collaborator) with
          | Rejected => inl (message 500 error500)
          | Resolved None => inl (message 404 "Document not found")
          | Resolved (Some document) =>
              if bool_decide (Document.ownerId document ≠ User.id user)
              then inl (message 403 error403)
              else inr collaborator
          end
      end
  end.

(** PATCH /api/collaborators/:id *)
Definition patchCollaboratorRoute (req_user : option User.t)
    (collaboratorId : option Z) (role : option string) (s : S)
  : S * Response :=
  match req_user, collaboratorId with
  | None, _ => (s, message 401 "Not authenticated")
  | Some _, None => (s, message 400 "Invalid collaborator ID")
  | Some user, Some collaboratorId =>
      match ownedCollaborator user collaboratorId
              "Only the owner can update collaborator roles"
              "Error updating collaborator" s with
      | inl response => (s, response)
      | inr _ =>
          match role with
          | Some r =>
              if validRole role then
                match updateCollaboratorRole s collaboratorId r with
                | (s', Resolved updatedCollaborator) =>
                    (s', collaborator_json updatedCollaborator)
                | (s', Rejected) =>
                    (s', message 500 "Error updating collaborator")
                end
              else (s, message 400 "Invalid role")
          | None => (s, message 400 "Invalid role")
          end
      end
  end.

(** DELETE /api/collaborators/:id *)
Definition deleteCollaboratorRoute (req_user : option User.t)
    (collaboratorId : option Z) (s : S) : S * Response :=
  match req_user, collaboratorId with
  | None, _ => (s, message 401 "Not authenticated")
  | Some _, None => (s, message 400 "Invalid collaborator ID")
  | Some user, Some collaboratorId =>
      match ownedCollaborator user collaboratorId
              "Only the owner can remove collaborators"
              "Error removing collaborator" s with
      | inl response => (s, response)
      | inr _ =>
          match removeCollaborator s collaboratorId with
          | (s', Resolved _) => (s', no_content)
          | (s', Rejected) => (s', message 500 "Error removing collaborator")
          end
      end
  end.

End Routes.

(** *** Threads of comments (GET /api/documents/:id/comments) *)

Module Comment.
Record t := mk {
  id : Z;
  documentId : Z;
  userId : Z;
  content : string;
  parentId : option Z }.
End Comment.

(** [c.parentId] as a condition: [null] and [0] are falsy. *)
Definition hasParent (c : Comment.t) : bool :=
  match Comment.parentId c with
  | Some p => negb (bool_decide (p = 0%Z))
  | None => false
  end.

(** The top-level comments, each with its replies. *)
Definition commentsWithReplies (commentsWithUser : list Comment.t)
  : list (Comment.t * list Comment.t) :=
  let parentComments := filter (λ c, hasParent c = false) commentsWithUser in
  let childComments := filter (λ c, hasParent c = true) commentsWithUser in
  (λ parent,
     (parent,
      filter (λ child, Comment.parentId child = Some (Comment.id parent))
             childComments))
    <$> parentComments.

End Api.

(** ** Sequences of editor actions *)

Module EditorActions.

Inductive Action :=
| Edit (newHTML : string)
| Undo
| Redo.

Definition step (serialize : string → string) (a : Action) (st : Editor.t)
  : Editor.t :=
  match a with
  | Edit newHTML => Editor.edit newHTML st
  | Undo => Editor.undo serialize st
  | Redo => Editor.redo serialize st
  end.

Definition run (serialize : string → string) (l : list Action)
    (st : Editor.t) : Editor.t :=
  foldl (λ st a, step serialize a st) st l.

(** A settled editor: content [c] held and shown, flag down. *)
Definition settled (U : list string) (c : string) (R : list string)
  : Editor.t :=
  Editor.mk (Some c) U R false c.

(** The element of the examples: it reads the unclosed ["<b>x"] back
    closed, as a browser does, and the plain texts used in the examples
    as they were written. *)
Definition read_back (s : string) : string :=
  if decide (s = "<b>x") then "<b>x</b>" else s.

End EditorActions.

(** * Properties of the client edit history *)

Section EditorFacts.
Import Editor.

Lemma edit_fields (newHTML : string) (st : t) :
  isUndoRedoAction st = false →
  edit newHTML st =
    mk (Some newHTML)
       (if truthy (content st)
        then undoStack st ++ option_list (content st) else undoStack st)
       (if truthy (content st) then [] else redoStack st)
       false newHTML.
Proof.
  intros Hflag. unfold edit, handleInput. cbn. rewrite Hflag. cbn.
  destruct (content st) as [c|]; cbn; [|done].
  destruct (bool_decide (c = "")); done.
Qed.

Lemma edits_snoc (l : list string) (x : string) (st : t) :
  edits (l ++ [x]) st = edit x (edits l st).
Proof. unfold edits. by rewrite foldl_app. Qed.

Lemma edits_flag (l : list string) (st : t) :
  isUndoRedoAction st = false → isUndoRedoAction (edits l st) = false.
Proof.
  induction l as [|x l IH] using rev_ind; [done|].
  intros Hflag. rewrite edits_snoc, edit_fields by auto. done.
Qed.

Lemma edits_content (l : list string) (st : t) :
  isUndoRedoAction st = false →
  content (edits l st) = from_option Some (content st) (last l).
Proof.
  intros Hflag. destruct l as [|x l _] using rev_ind; [done|].
  rewrite edits_snoc, edit_fields, last_snoc by (by apply edits_flag). done.
Qed.

(** With non-empty contents throughout, every edit pushes the content it
    replaces. *)
Lemma edits_undoStack (l : list string) (c0 : string) (st : t) :
  isUndoRedoAction st = false →
  content st = Some c0 →
  Forall (λ s, s ≠ "") (removelast (c0 :: l)) →
  undoStack (edits l st) = undoStack st ++ removelast (c0 :: l).
Proof.
  revert c0 st. induction l as [|x l IH]; intros c0 st Hflag Hc Hne.
  - cbn. by rewrite app_nil_r.
  - change (edits (x :: l) st) with (edits l (edit x st)).
    change (removelast (c0 :: x :: l)) with (c0 :: removelast (x :: l)) in *.
    apply Forall_cons in Hne as [Hc0 Hne].
    rewrite (IH x (edit x st)); rewrite ?edit_fields by done; try done.
    cbn. rewrite Hc. cbn. rewrite bool_decide_eq_false_2 by done. cbn.
    by rewrite <- app_assoc.
Qed.

Lemma removelast_cons_lookup (l : list string) (c0 : string) (i : nat) :
  i < length l → removelast (c0 :: l) !! i = (c0 :: l) !! i.
Proof.
  revert c0 i. induction l as [|x l IH]; intros c0 i Hi; [cbn in Hi; lia|].
  change (removelast (c0 :: x :: l)) with (c0 :: removelast (x :: l)).
  destruct i as [|i]; [done|]. cbn in Hi.
  rewrite !(lookup_cons_ne_0 _ _ (S i)) by done. cbn [pred]. apply IH. lia.
Qed.

Lemma last_take_lookup (l : list string) (c0 : string) (i : nat) :
  i ≤ length l →
  from_option Some (Some c0) (last (take i l)) = (c0 :: l) !! i.
Proof.
  revert c0 i. induction l as [|x l IH]; intros c0 i Hi.
  - cbn in Hi. by replace i with 0 by lia.
  - destruct i as [|i]; [done|]. cbn in Hi.
    rewrite lookup_cons_ne_0 by done. cbn [pred take].
    rewrite <- (IH x i) by lia. rewrite last_cons.
    by destruct (last (take i l)).
Qed.

End EditorFacts.

(** C2, as the code has it: the history is seeded with the initial content
    when the editor mounts, so after [n] local edits (initial content and
    every content that gets replaced non-empty, no undo or redo) the undo
    stack has [n + 1] entries: the seed at index 0, and at index [i + 1]
    the content held immediately before the edit number [i + 1].  This
    holds whatever the element's serialisation is. *)
Theorem undo_stack_after_local_edits (serialize : string → string)
    (c0 : string) (l : list string) :
  c0 ≠ "" →
  Forall (λ s, s ≠ "") (removelast l) →
  let st := Editor.edits l (Editor.mount serialize (Some c0)) in
  length (Editor.undoStack st) = S (length l)
  ∧ Editor.undoStack st !! 0 = Some c0
  ∧ ∀ i, i < length l →
      Editor.undoStack st !! S i
      = Editor.content
          (Editor.edits (take i l) (Editor.mount serialize (Some c0))).
Proof.
  intros Hc0 Hne st.
  assert (Hmount : Editor.mount serialize (Some c0)
                   = Editor.mk (Some c0) [c0] [] false (serialize c0)).
  { unfold Editor.mount, Editor.truthy. by rewrite bool_decide_eq_false_2. }
  assert (Hstack : Editor.undoStack st = c0 :: removelast (c0 :: l)).
  { assert (Forall (λ s, s ≠ "") (removelast (c0 :: l))) as Hall.
    { destruct l; [constructor | by constructor]. }
    unfold st. rewrite Hmount. by rewrite (edits_undoStack l c0). }
  assert (Hlen : length (removelast (c0 :: l)) = length l).
  { clear. revert c0. induction l as [|x l IH]; intros c0; [done|].
    change (removelast (c0 :: x :: l)) with (c0 :: removelast (x :: l)).
    cbn [length]. by rewrite IH. }
  rewrite Hstack. split; [cbn [length]; by rewrite Hlen|]. split; [done|].
  intros i Hi. rewrite Hmount, edits_content by done.
  change ((c0 :: removelast (c0 :: l)) !! S i) with (removelast (c0 :: l) !! i).
  rewrite removelast_cons_lookup by done.
  cbn [Editor.content]. rewrite last_take_lookup by lia. done.
Qed.

Lemma undo_stack_after_local_edits_witness :
  "a" ≠ "" ∧ Forall (λ s, s ≠ "") (removelast ["ab"; "abc"])
  ∧ length (Editor.undoStack
              (Editor.edits ["ab"; "abc"]
                 (Editor.mount EditorActions.read_back (Some "a")))) = 3.
Proof.
  split; [done|]. split; [repeat constructor; done|].
  apply (undo_stack_after_local_edits EditorActions.read_back "a"
           ["ab"; "abc"]);
    [done | repeat constructor; done].
Defined.

(** C2 as stated fails: one edit of a document whose content is ["a"]
    leaves two entries on the undo stack, not one. *)
Lemma undo_stack_length_counterexample :
  let l := ["ab"] in
  let st := Editor.edits l (Editor.mount EditorActions.read_back (Some "a")) in
  Editor.undoStack st = ["a"; "a"] ∧ length (Editor.undoStack st) ≠ length l.
Proof. vm_compute. split; [reflexivity | discriminate]. Qed.

(** Why the contents have to be non-empty: an edit that replaces an empty
    content records nothing. *)
Example edits_from_empty_content :
  Editor.undoStack
    (Editor.edits ["ab"; "abc"]
       (Editor.mount EditorActions.read_back (Some "")))
  = ["ab"].
Proof. reflexivity. Qed.

(** An undo that has something to pop: the popped snapshot is assigned to
    the element and the content becomes what the element then reads. *)
Lemma undo_fields (serialize : string → string) (st : Editor.t)
    (c p : string) (U : list string) :
  Editor.content st = Some c → c ≠ "" →
  Editor.undoStack st = U ++ [p] → p ≠ "" →
  Editor.undo serialize st =
    Editor.mk (Some (serialize p)) U (Editor.redoStack st ++ [c]) false
      (serialize p).
Proof.
  intros Hc Hcne HU Hpne. unfold Editor.undo, Editor.handleInput.
  rewrite HU, last_snoc, removelast_last, Hc. cbn.
  by rewrite !bool_decide_eq_false_2.
Qed.

Lemma redo_fields (serialize : string → string) (st : Editor.t)
    (c n : string) (R : list string) :
  Editor.content st = Some c → c ≠ "" →
  Editor.redoStack st = R ++ [n] → n ≠ "" →
  Editor.redo serialize st =
    Editor.mk (Some (serialize n)) (Editor.undoStack st ++ [c]) R false
      (serialize n).
Proof.
  intros Hc Hcne HR Hnne. unfold Editor.redo, Editor.handleInput.
  rewrite HR, last_snoc, removelast_last, Hc. cbn.
  by rewrite !bool_decide_eq_false_2.
Qed.

(** C5, as the code has it: [undo()] and [redo()] assign the snapshot to
    the element and take as content what the element then reads.  So
    when there is something to undo (the undo stack is not empty, its top
    entry is not empty and does not read back empty) and the current
    content is not empty and is in the element's own serialised form (it
    reads back as it is written), [undo()] followed by [redo()] gives
    back the content held before the [undo()] and leaves the depth of
    both stacks as it was. *)
Theorem undo_then_redo_restores (serialize : string → string)
    (st : Editor.t) (c p : string) :
  Editor.content st = Some c → c ≠ "" → serialize c = c →
  last (Editor.undoStack st) = Some p → p ≠ "" → serialize p ≠ "" →
  let st' := Editor.redo serialize (Editor.undo serialize st) in
  Editor.content st' = Editor.content st
  ∧ length (Editor.undoStack st') = length (Editor.undoStack st)
  ∧ length (Editor.redoStack st') = length (Editor.redoStack st).
Proof.
  intros Hc Hcne Hcfix Hlast Hpne Hpser st'.
  apply last_Some in Hlast as [U HU].
  assert (st' = Editor.mk (Some c) (U ++ [serialize p]) (Editor.redoStack st)
                  false c) as ->.
  { unfold st'. rewrite (undo_fields serialize st c p U) by done.
    rewrite (redo_fields serialize _ (serialize p) c (Editor.redoStack st))
      by done.
    cbn. by rewrite Hcfix. }
  cbn. rewrite Hc, HU, !length_app. done.
Qed.

Lemma undo_then_redo_restores_witness :
  let serialize := EditorActions.read_back in
  let st := Editor.edits ["ab"] (Editor.mount serialize (Some "<b>x")) in
  Editor.content st = Some "ab"
  ∧ serialize "ab" = "ab"
  ∧ last (Editor.undoStack st) = Some "<b>x"
  ∧ serialize "<b>x" = "<b>x</b>"
  ∧ Editor.content (Editor.redo serialize (Editor.undo serialize st))
    = Editor.content st
  ∧ length (Editor.undoStack (Editor.redo serialize (Editor.undo serialize st)))
    = length (Editor.undoStack st)
  ∧ length (Editor.redoStack (Editor.redo serialize (Editor.undo serialize st)))
    = length (Editor.redoStack st).
Proof.
  intros serialize st. split; [reflexivity|]. split; [reflexivity|].
  split; [reflexivity|]. split; [reflexivity|].
  apply (undo_then_redo_restores serialize st "ab" "<b>x");
    [reflexivity | done | reflexivity | reflexivity | done | done].
Defined.

(** C5 as stated fails on the state reached by mounting on content ["a"]
    and undoing once (nothing left to undo, one entry to redo): a further
    [undo()] then [redo()] leaves two entries on the undo stack and none
    on the redo stack. *)
Lemma undo_then_redo_counterexample :
  let serialize := EditorActions.read_back in
  let st := Editor.undo serialize (Editor.mount serialize (Some "a")) in
  let st' := Editor.redo serialize (Editor.undo serialize st) in
  st = Editor.mk (Some "a") [] ["a"] false "a"
  ∧ st' = Editor.mk (Some "a") ["a"; "a"] [] false "a"
  ∧ ¬ (Editor.content st' = Editor.content st
       ∧ length (Editor.undoStack st') = length (Editor.undoStack st)
       ∧ length (Editor.redoStack st') = length (Editor.redoStack st)).
Proof.
  vm_compute. split; [reflexivity|]. split; [reflexivity|].
  intros (_ & Hundo & _). discriminate Hundo.
Qed.

(** Why the current content has to be non-empty: it is not pushed on the
    redo stack, so [redo()] has nothing to bring back. *)
Example undo_then_redo_from_empty_content :
  Editor.redo EditorActions.read_back
    (Editor.undo EditorActions.read_back
       (Editor.mk (Some "") ["a"] [] false ""))
  = Editor.mk (Some "a") ["a"] [] false "a".
Proof. reflexivity. Qed.

(** Why the current content has to be in serialised form: a document
    stored as ["<b>x"] is shown, and after [undo()] and [redo()] held, as
    ["<b>x</b>"]. *)
Example undo_then_redo_reserialises_markup :
  let serialize := EditorActions.read_back in
  let st := Editor.mount serialize (Some "<b>x") in
  Editor.content st = Some "<b>x"
  ∧ Editor.content (Editor.undo serialize st) = Some "<b>x</b>"
  ∧ Editor.content (Editor.redo serialize (Editor.undo serialize st))
    = Some "<b>x</b>".
Proof. vm_compute. repeat split; reflexivity. Qed.

(** * Properties of the synchronisation server *)

Section SyncFacts.
Context {S : Type} `{IStorage S}.

Lemma emitted_app (st st' : Server.t S) (tr : list Event) :
  Server.trace st' = Server.trace st ++ tr → emitted st st' = tr.
Proof. intros Htr. unfold emitted. rewrite Htr. apply drop_app_length. Qed.

Lemma elem_of_sent_to (ws : conn) (m : ServerMsg) (tr : list Event) :
  m ∈ sent_to ws tr ↔ Send ws m ∈ tr.
Proof.
  unfold sent_to. rewrite list_elem_of_omap. split.
  - intros ([ws' m'|] & Hin & Heq); [|done].
    case_decide; simplify_eq. done.
  - intros Hin. exists (Send ws m). split; [done|]. by rewrite decide_True.
Qed.

Lemma elem_of_broadcast (st : Server.t S) (documentId : Z) (data : ServerMsg)
    (excludeWs : option conn) (e : Event) :
  e ∈ (λ client, Send (Client.ws client) data)
        <$> recipients st documentId excludeWs
  ↔ ∃ client, e = Send (Client.ws client) data
      ∧ client ∈ Server.clients st
      ∧ Client.documentId client = documentId
      ∧ Some (Client.ws client) ≠ excludeWs
      ∧ Server.readyState st (Client.ws client) = OPEN.
Proof.
  rewrite list_elem_of_fmap. unfold recipients. split.
  - intros (client & -> & Hin). apply list_elem_of_filter in Hin.
    exists client. tauto.
  - intros (client & -> & Hin & Hrest). exists client. split; [done|].
    by apply list_elem_of_filter.
Qed.

(** What an edit does once the connection is bound to the document of the
    message: the store is written first, then the others are told, or the
    sender gets the error of the [catch]. *)
Lemma edit_bound_document (st : Server.t S) (ws : conn) (info : Client.t)
    (content : string) (cursorPosition : option CursorPosition.t) :
  Server.clientInfo st !! ws = Some info →
  let documentId := Client.documentId info in
  let u := DocumentUpdate.mk None (Some content) in
  let st' := onMessage ws (Parsed (document_edit documentId content
                                     cursorPosition)) st in
  Server.clients st' = Server.clients st
  ∧ Server.clientInfo st' = Server.clientInfo st
  ∧ Server.readyState st' = Server.readyState st
  ∧ Server.storage st' = (updateDocument (Server.storage st) documentId u).1
  ∧ Server.trace st' =
      Server.trace st ++ Persist documentId u ::
        match (updateDocument (Server.storage st) documentId u).2 with
        | Resolved _ =>
            (λ client, Send (Client.ws client)
                         (document_update documentId content
                            (Client.userId info) cursorPosition))
              <$> recipients st documentId (Some ws)
        | Rejected => [Send ws (error "Invalid message format")]
        end.
Proof.
  intros Hinfo documentId u st'. unfold st', onMessage, handle, bind. cbn.
  rewrite Hinfo. cbn. rewrite bool_decide_eq_false_2 by (by intros []).
  cbn. subst u.
  destruct (updateDocument (Server.storage st) documentId _) as [s' [o|]];
    cbn; rewrite <- app_assoc; done.
Qed.

Lemma edit_mismatch_state (st : Server.t S) (ws : conn)
    (info : Client.t) (documentId : Z) (content : string)
    (cursorPosition : option CursorPosition.t) :
  Server.clientInfo st !! ws = Some info →
  documentId ≠ Client.documentId info →
  onMessage ws (Parsed (document_edit documentId content cursorPosition)) st
  = Server.mk (Server.clients st) (Server.clientInfo st)
      (Server.readyState st) (Server.storage st)
      (Server.trace st ++ [Send ws (error "Invalid document ID")]).
Proof.
  intros Hinfo Hne. unfold onMessage, handle, bind. cbn.
  rewrite Hinfo. cbn. by rewrite bool_decide_eq_true_2.
Qed.


(** C7: on a connection authenticated for document [d], a [document_edit]
    naming another document is answered with the error reply ['Invalid
    document ID'] to the sender; that reply is the only event: nothing is
    broadcast and the store is neither called nor changed. *)
Theorem edit_for_other_document_rejected (st : Server.t S) (ws : conn)
    (info : Client.t) (documentId : Z) (content : string)
    (cursorPosition : option CursorPosition.t) :
  Server.clientInfo st !! ws = Some info →
  documentId ≠ Client.documentId info →
  onMessage ws (Parsed (document_edit documentId content cursorPosition)) st
  = Server.mk (Server.clients st) (Server.clientInfo st)
      (Server.readyState st) (Server.storage st)
      (Server.trace st ++ [Send ws (error "Invalid document ID")]).
Proof. apply edit_mismatch_state. Qed.

(** C6: handling a [document_edit], the store is written before anything
    is broadcast.  Every [document_update] the server sends comes after
    the call of [updateDocument] for that edit in the trace; that call
    has resolved; the broadcast starts from the state [mid] in which the
    handler already holds the store the call has written, and that
    written store is the store the handler ends with.  When the call
    rejects, no [document_update] is sent at all.  The store is written
    exactly when the call is in the trace: then the handler ends with
    the written store, otherwise with the store it started from. *)
Theorem persist_before_broadcast (st : Server.t S) (ws : conn)
    (documentId : Z) (content : string)
    (cursorPosition : option CursorPosition.t) :
  let u := DocumentUpdate.mk None (Some content) in
  let st' := onMessage ws (Parsed (document_edit documentId content
                                     cursorPosition)) st in
  let tr := emitted st st' in
  let written := updateDocument (Server.storage st) documentId u in
  (∀ i e, tr !! i = Some e → is_send_update e = true →
          (∃ j, j < i ∧ tr !! j = Some (Persist documentId u))
          ∧ written.2 ≠ Rejected
          ∧ Server.storage st' = written.1
          ∧ ∃ info mid,
              Server.clientInfo st !! ws = Some info
              ∧ await_updateDocument documentId u st = (mid, written.2)
              ∧ Server.storage mid = written.1
              ∧ st' = (broadcastToDocument documentId
                         (document_update documentId content
                            (Client.userId info) cursorPosition)
                         (Some ws) mid).1)
  ∧ (written.2 = Rejected → Forall (λ e, is_send_update e = false) tr)
  ∧ (Persist documentId u ∈ tr → Server.storage st' = written.1)
  ∧ (Persist documentId u ∉ tr → Server.storage st' = Server.storage st).
Proof.
  intros u st' tr written.
  destruct (Server.clientInfo st !! ws) as [info|] eqn:Hinfo.
  - destruct (decide (documentId = Client.documentId info)) as [->|Hne].
    + destruct (edit_bound_document st ws info content cursorPosition Hinfo)
        as (_ & _ & _ & Hstore & Htr).
      fold u st' written in Hstore.
      apply emitted_app in Htr. fold u st' tr written in Htr.
      assert (Persist (Client.documentId info) u ∈ tr) as Hin.
      { rewrite Htr. apply elem_of_cons. by left. }
      split; [|split; [|split]]; [| |done|done].
      * intros i e Hi He.
        assert (∃ document, written.2 = Resolved document) as [document Hw].
        { destruct (written.2) as [document|] eqn:Hw; [by eexists|].
          rewrite Htr in Hi.
          destruct i as [|[|i]]; by simplify_eq/=. }
        split.
        { rewrite Htr in Hi |- *. destruct i as [|i]; [by simplify_eq/=|].
          exists 0. split; [lia | done]. }
        split; [by rewrite Hw|]. split; [done|].
        exists info, (await_updateDocument (Client.documentId info) u st).1.
        split; [done|].
        unfold st', onMessage, handle, bind. cbn. rewrite Hinfo. cbn.
        rewrite bool_decide_eq_false_2 by (by intros []). cbn.
        unfold await_updateDocument, bind. cbn. fold u written.
        clear Hstore Htr Hin Hi.
        destruct written as [s' r]. cbn in Hw. subst r. cbn.
        by rewrite <- app_assoc.
      * rewrite Htr. intros ->. by repeat constructor.
    + assert (Hst' : st' = Server.mk (Server.clients st) (Server.clientInfo st)
                        (Server.readyState st) (Server.storage st)
                        (Server.trace st
                           ++ [Send ws (error "Invalid document ID")])).
      { unfold st'. by rewrite (edit_mismatch_state st ws info). }
      assert (tr = [Send ws (error "Invalid document ID")]) as ->.
      { apply emitted_app. by rewrite Hst'. }
      split; [|split; [|split]].
      * intros [|i] e Hi He; by simplify_eq/=.
      * by repeat constructor.
      * intros Hin. apply list_elem_of_singleton in Hin. discriminate Hin.
      * intros _. by rewrite Hst'.
  - assert (Hst' : st' = Server.mk (Server.clients st) (Server.clientInfo st)
                      (Server.readyState st) (Server.storage st)
                      (Server.trace st
                         ++ [Send ws (error "Not authenticated")])).
    { unfold st', onMessage, handle, bind. cbn. by rewrite Hinfo. }
    assert (tr = [Send ws (error "Not authenticated")]) as ->.
    { apply emitted_app. by rewrite Hst'. }
    split; [|split; [|split]].
    + intros [|i] e Hi He; by simplify_eq/=.
    + by repeat constructor.
    + intros Hin. apply list_elem_of_singleton in Hin. discriminate Hin.
    + intros _. by rewrite Hst'.
Qed.

(** C8: A on connection [a] and B on connection [b] are both bound to
    document [d], B's transport is open and the store accepts the write.
    When A sends [document_edit] with content [X], B is sent the
    [document_update] with content [X] and [updatedBy] A's id, B is sent
    nothing else, and nothing at all is sent to [a]. *)
Theorem edit_reaches_other_participant (st : Server.t S) (a b : conn)
    (infoA clientB : Client.t) (X : string)
    (cursorPosition : option CursorPosition.t) :
  Server.clientInfo st !! a = Some infoA →
  clientB ∈ Server.clients st →
  Client.documentId clientB = Client.documentId infoA →
  Client.ws clientB = b →
  b ≠ a →
  Server.readyState st b = OPEN →
  (updateDocument (Server.storage st) (Client.documentId infoA)
     (DocumentUpdate.mk None (Some X))).2 ≠ Rejected →
  let d := Client.documentId infoA in
  let st' := onMessage a (Parsed (document_edit d X cursorPosition)) st in
  let update := document_update d X (Client.userId infoA) cursorPosition in
  update ∈ sent_to b (emitted st st')
  ∧ (∀ m, m ∈ sent_to b (emitted st st') → m = update)
  ∧ sent_to a (emitted st st') = [].
Proof.
  intros HA HB HBd HBws Hba Hopen Hok d st' update.
  destruct (edit_bound_document st a infoA X cursorPosition HA)
    as (_ & _ & _ & _ & Htr).
  apply emitted_app in Htr. fold d st' in Htr. rewrite Htr. clear Htr.
  destruct (updateDocument _ _ _).2 as [o|]; [clear Hok|done].
  split; [|split].
  - apply elem_of_sent_to, elem_of_cons. right.
    apply elem_of_broadcast. exists clientB. subst b.
    repeat split; try done. congruence.
  - intros m Hm. apply elem_of_sent_to, elem_of_cons in Hm as [Hm|Hm]; [done|].
    apply elem_of_broadcast in Hm as (client & Heq & _). by simplify_eq.
  - apply elem_of_nil_inv. intros m Hm.
    apply elem_of_sent_to, elem_of_cons in Hm as [Hm|Hm]; [done|].
    apply elem_of_broadcast in Hm as (client & Heq & _ & _ & Hex & _).
    by simplify_eq.
Qed.

(** The close handler when the first tuple of the user on the document
    is the connection's own: that tuple goes, the others stay, and the
    open connections left on the document are each sent [user_left]. *)
Lemma close_own_tuple (st : Server.t S) (ws : conn) (info : Client.t)
    (pre post : list Client.t) :
  Server.clientInfo st !! ws = Some info →
  Server.clients st = pre ++ info :: post →
  Forall (λ c, ¬ (Client.userId c = Client.userId info
                  ∧ Client.documentId c = Client.documentId info)) pre →
  onClose ws st
  = broadcast_left info
      (Server.mk (pre ++ post) (Server.clientInfo st) (Server.readyState st)
         (Server.storage st) (Server.trace st)).
Proof.
  intros Hinfo Hclients Hpre. unfold onClose. rewrite Hinfo, Hclients.
  rewrite list_find_app_r by (by apply list_find_None).
  cbn. rewrite decide_True by done. cbn.
  by rewrite delete_middle.
Qed.

(** With no other tuple of that user on that document, running the close
    handler a second time changes nothing. *)
Lemma close_twice (st : Server.t S) (ws : conn) (info : Client.t)
    (pre post : list Client.t) :
  Server.clientInfo st !! ws = Some info →
  Server.clients st = pre ++ info :: post →
  Forall (λ c, ¬ (Client.userId c = Client.userId info
                  ∧ Client.documentId c = Client.documentId info))
         (pre ++ post) →
  onClose ws (onClose ws st) = onClose ws st
  ∧ Forall (λ c, Client.userId c ≠ Client.userId info)
      (filter (λ c, Client.documentId c = Client.documentId info)
              (Server.clients (onClose ws st))).
Proof.
  intros Hinfo Hclients Hall.
  rewrite (close_own_tuple st ws info pre post)
    by (try done; by apply Forall_app in Hall as [? _]).
  split.
  - unfold onClose at 1. cbn. rewrite Hinfo.
    by rewrite (proj2 (list_find_None _ _) Hall).
  - cbn. apply Forall_forall. intros c Hc.
    apply list_elem_of_filter in Hc as [Hd Hc].
    rewrite Forall_forall in Hall. specialize (Hall c Hc). tauto.
Qed.

End SyncFacts.

Section AuthFacts.
Context {S : Type} `{IStorage S}.

(** C9: an [auth] message of a user who neither owns the document nor
    holds a grant on it is answered with an [error] message to that
    connection and nothing else happens: the registry ([clients] and the
    connection's [clientInfo]) is as before, and so is the roster of the
    document. *)
Theorem auth_without_access_rejected (st : Server.t S) (ws : conn)
    (userId documentId : Z) :
  ¬ isOwner (Server.storage st) userId documentId →
  ¬ isCollaborator (Server.storage st) userId documentId →
  let st' := onMessage ws (Parsed (auth userId documentId)) st in
  (∃ message,
      st' = Server.mk (Server.clients st) (Server.clientInfo st)
              (Server.readyState st) (Server.storage st)
              (Server.trace st ++ [Send ws (error message)]))
  ∧ Server.clients st' = Server.clients st
  ∧ Server.clientInfo st' !! ws = Server.clientInfo st !! ws
  ∧ listActive st' documentId = listActive st documentId.
Proof.
  intros Hown Hcol st'.
  assert (∃ message,
      st' = Server.mk (Server.clients st) (Server.clientInfo st)
              (Server.readyState st) (Server.storage st)
              (Server.trace st ++ [Send ws (error message)])) as Hst'.
  { unfold st', onMessage, handle, bind, await. cbn.
    destruct (getUser (Server.storage st) userId) as [[user|]|]; cbn; eauto.
    destruct (getDocument (Server.storage st) documentId)
      as [[document|]|] eqn:Hdoc; cbn; eauto.
    case_bool_decide as Howner; cbn.
    { destruct Hown. by exists document. }
    destruct (getCollaborators (Server.storage st) documentId)
      as [collaborators|] eqn:Hcs; cbn; eauto.
    case_bool_decide as Hex; cbn; eauto.
    destruct Hcol. by exists collaborators. }
  split; [done|]. destruct Hst' as [message ->]. done.
Qed.

End AuthFacts.

Lemma auth_without_access_rejected_witness :
  let st := Scenario.two_participants in
  ¬ isOwner (Server.storage st) 3 1
  ∧ ¬ isCollaborator (Server.storage st) 3 1
  ∧ Server.clients (onMessage 5 (Parsed (auth 3 1)) st) = Server.clients st.
Proof.
  intros st.
  assert (¬ isOwner (Server.storage st) 3 1) as Hown.
  { intros (document & Hdoc & Howner). vm_compute in Hdoc.
    by simplify_eq. }
  assert (¬ isCollaborator (Server.storage st) 3 1) as Hcol.
  { intros (collaborators & Hcs & Hex). vm_compute in Hcs. simplify_eq.
    apply Exists_cons in Hex as [Hex|Hex]; [done|by apply Exists_nil in Hex]. }
  split; [done|]. split; [done|].
  apply (auth_without_access_rejected st 5 3 1 Hown Hcol).
Defined.

Lemma edit_for_other_document_rejected_witness :
  let st := Scenario.two_participants in
  Server.clientInfo st !! 0 = Some (Client.mk 1 1 0)
  ∧ 7%Z ≠ 1%Z
  ∧ onMessage 0 (Parsed (document_edit 7 "X" None)) st
    = Server.mk (Server.clients st) (Server.clientInfo st)
        (Server.readyState st) (Server.storage st)
        (Server.trace st ++ [Send 0 (error "Invalid document ID")]).
Proof.
  intros st. split; [reflexivity|]. split; [done|].
  apply (edit_for_other_document_rejected st 0 (Client.mk 1 1 0) 7 "X" None);
    [reflexivity | done].
Defined.

Lemma persist_before_broadcast_witness :
  let st := Scenario.two_participants in
  let st' := onMessage 0 (Parsed (document_edit 1 "X" None)) st in
  let u := DocumentUpdate.mk None (Some "X") in
  emitted st st' = [Persist 1 u; Send 1 (document_update 1 "X" 1 None)]
  ∧ getDocument (Server.storage st) 1
    = Resolved (Some (Document.mk 1 "Notes" (Some "original") 1))
  ∧ Server.storage st' = (updateDocument (Server.storage st) 1 u).1
  ∧ getDocument (Server.storage st') 1
    = Resolved (Some (Document.mk 1 "Notes" (Some "X") 1)).
Proof.
  intros st st' u. split; [reflexivity|]. split; [reflexivity|].
  split; [|reflexivity].
  destruct (persist_before_broadcast st 0 1 "X" None) as (Hsent & _).
  destruct (Hsent 1 (Send 1 (document_update 1 "X" 1 None)))
    as (_ & _ & Hstore & _); [reflexivity | reflexivity | exact Hstore].
Defined.

(** The rejecting store: nothing is broadcast. *)
Example persist_rejected_offline :
  let st := Scenario.two_participants_offline in
  let u := DocumentUpdate.mk None (Some "X") in
  (updateDocument (Server.storage st) 1 u).2 = Rejected
  ∧ emitted st (onMessage 1 (Parsed (document_edit 1 "X" None)) st)
    = [Persist 1 u; Send 1 (error "Invalid message format")].
Proof. split; reflexivity. Qed.

Lemma edit_reaches_other_participant_witness :
  let st := Scenario.two_participants in
  let st' := onMessage 0 (Parsed (document_edit 1 "X" None)) st in
  Server.clientInfo st !! 0 = Some (Client.mk 1 1 0)
  ∧ Client.mk 2 1 1 ∈ Server.clients st
  ∧ Server.readyState st 1 = OPEN
  ∧ document_update 1 "X" 1 None ∈ sent_to 1 (emitted st st')
  ∧ sent_to 0 (emitted st st') = [].
Proof.
  intros st st'.
  assert (Client.mk 2 1 1 ∈ Server.clients st) as Hin.
  { apply elem_of_cons. right. apply elem_of_cons. by left. }
  split; [reflexivity|]. split; [done|]. split; [reflexivity|].
  pose proof (edit_reaches_other_participant st 0 1
                (Client.mk 1 1 0) (Client.mk 2 1 1) "X" None) as Hthm.
  destruct Hthm as (Hrecv & _ & Hnone);
    [reflexivity | done | reflexivity | reflexivity | done | reflexivity
    | by vm_compute | ].
  split; [exact Hrecv | exact Hnone].
Defined.


(** * The in-memory store behind the server *)

Lemma MemStorage_update_missing (s : MemStorage.t) (id : Z)
    (u : DocumentUpdate.t) :
  MemStorage.documents s !! id = None →
  MemStorage.updateDocument s id u = (s, Resolved None).
Proof. intros Hnone. unfold MemStorage.updateDocument. by rewrite Hnone. Qed.

Lemma MemStorage_delete_lookup (s : MemStorage.t) (id : Z) :
  MemStorage.documents (MemStorage.deleteDocument s id).1 !! id = None.
Proof. cbn. apply lookup_delete_eq. Qed.

(** C10: the document a session is bound to is deleted from the store.
    A [document_edit] of that session then leaves the store as it is
    ([updateDocument] settles to nothing instead of rejecting), yet the
    server goes on to send the [document_update] with the new content to
    the other open connections on the document, and sends no error, nor
    anything else, to the sender. *)
Theorem edit_after_document_deleted (st : Server.t MemStorage.t) (ws : conn)
    (info : Client.t) (content : string)
    (cursorPosition : option CursorPosition.t) :
  Server.clientInfo st !! ws = Some info →
  let d := Client.documentId info in
  let deleted :=
    Server.with_storage (MemStorage.deleteDocument (Server.storage st) d).1 st in
  let st' := onMessage ws (Parsed (document_edit d content cursorPosition))
               deleted in
  let update := document_update d content (Client.userId info) cursorPosition in
  MemStorage.updateDocument (Server.storage deleted) d
    (DocumentUpdate.mk None (Some content))
  = (Server.storage deleted, Resolved None)
  ∧ Server.storage st' = Server.storage deleted
  ∧ emitted deleted st'
    = Persist d (DocumentUpdate.mk None (Some content))
        :: ((λ client, Send (Client.ws client) update)
              <$> recipients st d (Some ws))
  ∧ sent_to ws (emitted deleted st') = [].
Proof.
  intros Hinfo d deleted st' update.
  assert (MemStorage.updateDocument (Server.storage deleted) d
            (DocumentUpdate.mk None (Some content))
          = (Server.storage deleted, Resolved None)) as Hupd.
  { apply MemStorage_update_missing, MemStorage_delete_lookup. }
  destruct (edit_bound_document deleted ws info content cursorPosition Hinfo)
    as (_ & _ & _ & Hs & Htr).
  fold d st' in Hs, Htr. cbn [updateDocument MemStorage_IStorage] in Hs, Htr.
  rewrite Hupd in Hs, Htr. cbn [fst snd] in Hs, Htr.
  apply emitted_app in Htr.
  split; [done|]. split; [done|]. split; [done|].
  rewrite Htr. apply elem_of_nil_inv. intros m Hm.
  apply elem_of_sent_to, elem_of_cons in Hm as [Hm|Hm]; [done|].
  apply elem_of_broadcast in Hm as (client & Heq & _ & _ & Hex & _).
  by simplify_eq.
Qed.

Lemma edit_after_document_deleted_witness :
  let st := Scenario.two_participants in
  let deleted :=
    Server.with_storage (MemStorage.deleteDocument (Server.storage st) 1).1 st in
  let st' := onMessage 0 (Parsed (document_edit 1 "X" None)) deleted in
  Server.clientInfo st !! 0 = Some (Client.mk 1 1 0)
  ∧ MemStorage.documents (Server.storage deleted) !! 1%Z = None
  ∧ emitted deleted st'
    = [Persist 1 (DocumentUpdate.mk None (Some "X"));
       Send 1 (document_update 1 "X" 1 None)]
  ∧ sent_to 0 (emitted deleted st') = [].
Proof.
  intros st deleted st'. split; [reflexivity|]. split; [reflexivity|].
  destruct (edit_after_document_deleted st 0 (Client.mk 1 1 0) "X" None)
    as (_ & _ & Htr & Hnone); [reflexivity|].
  split; [exact Htr | exact Hnone].
Defined.

(** * Where the code departs from the specification *)

(** C1 fails on the code: bob holds a ['viewer'] grant (or a
    ['commenter'] grant) on alice's document 1 and is subscribed on
    connection 1.  His [document_edit] is accepted: the stored content
    becomes his, alice is sent the update, he gets no error.  The REST
    update route refuses the same viewer with status 403 and leaves the
    store alone. *)
Theorem grant_role_not_checked_on_edit (role : string) :
  role = "viewer" ∨ role = "commenter" →
  let s := Scenario.store_with_role role in
  let st := Scenario.participants s in
  let st' := onMessage 1 (Parsed (document_edit 1 "overwritten" None)) st in
  (Collaborator.role <$> MemStorage.collaborators (Server.storage st)) = [role]
  ∧ Document.content <$> MemStorage.documents (Server.storage st) !! 1%Z
    = Some (Some "original")
  ∧ Document.content <$> MemStorage.documents (Server.storage st') !! 1%Z
    = Some (Some "overwritten")
  ∧ emitted st st'
    = [Persist 1 (DocumentUpdate.mk None (Some "overwritten"));
       Send 0 (document_update 1 "overwritten" 2 None)]
  ∧ (Routes.patchDocument (Some Scenario.bob) (Some 1%Z)
       (DocumentUpdate.mk None (Some "overwritten"))
       (Scenario.store_with_role "viewer"))
    = (Scenario.store_with_role "viewer",
       Routes.json_message 403 "No permission to edit this document").
Proof.
  intros [-> | ->]; vm_compute; repeat split; reflexivity.
Qed.

Lemma grant_role_not_checked_on_edit_witness :
  Document.content
    <$> MemStorage.documents
          (Server.storage
             (onMessage 1 (Parsed (document_edit 1 "overwritten" None))
                (Scenario.participants (Scenario.store_with_role "viewer"))))
        !! 1%Z
  = Some (Some "overwritten").
Proof.
  apply (grant_role_not_checked_on_edit "viewer"). by left.
Defined.

(** C4 fails on the code: alice has document 1 open in two tabs
    (connections 0 and 1) and bob has it open on connection 2.  When
    connection 1 closes, the handler looks the tuple up by user and
    document: it removes the tuple of connection 0, which is still open,
    and keeps the tuple of the closed connection 1.  Connection 0 is
    from then on no recipient of broadcasts on the document, and a second
    run of the close handler for connection 1 removes one more tuple and
    sends bob a second [user_left]. *)
Theorem close_removes_tuple_of_other_connection :
  let st := Scenario.two_tabs in
  let st' := onClose 1 st in
  Server.clients st
  = [Client.mk 1 1 0; Client.mk 1 1 1; Client.mk 2 1 2]
  ∧ Server.clients st' = [Client.mk 1 1 1; Client.mk 2 1 2]
  ∧ emitted st st' = [Send 2 (user_left 1)]
  ∧ Server.readyState st' 0 = OPEN
  ∧ recipients st' 1 None = [Client.mk 2 1 2]
  ∧ listActive st' 1
    = Resolved [ActiveUser.mk 1 "alice" "Alice"; ActiveUser.mk 2 "bob" "Bob"]
  ∧ Server.clients (onClose 1 st') = [Client.mk 2 1 2]
  ∧ sent_to 2 (emitted st (onClose 1 st')) = [user_left 1; user_left 1].
Proof. vm_compute. repeat split; reflexivity. Qed.

(** * Further properties of the synchronisation server *)

Section HandlerFacts.
Context {S : Type} `{IStorage S}.

#[local] Arguments recipients : simpl never.

(** A handler path that ends in one reply to the sender. *)
Ltac shape_reply :=
  eexists [], _, _, [_]; rewrite app_nil_r;
  (split; [reflexivity | repeat split; auto; repeat constructor]).

Lemma recipients_snoc_excluded (st : Server.t S) (userId documentId d : Z)
    (ws : conn) (ci : gmap conn Client.t) (tr : list Event) :
  recipients
    (Server.mk (Server.clients st ++ [Client.mk userId documentId ws]) ci
       (Server.readyState st) (Server.storage st) tr) d (Some ws)
  = recipients st d (Some ws).
Proof.
  unfold recipients. cbn. rewrite filter_app, filter_cons_False, filter_nil.
  - apply app_nil_r.
  - intros (_ & Hne & _). done.
Qed.

(** X1: a [document_edit] or [cursor_position] on a connection that never
    authenticated gets the reply ['Not authenticated'] and has no other
    effect. *)
Theorem unauthenticated_message_rejected (st : Server.t S) (ws : conn)
    (data : Data) :
  Server.clientInfo st !! ws = None →
  (∃ documentId content cursorPosition,
      data = document_edit documentId content cursorPosition)
  ∨ (∃ position, data = cursor_position position) →
  onMessage ws (Parsed data) st
  = Server.mk (Server.clients st) (Server.clientInfo st)
      (Server.readyState st) (Server.storage st)
      (Server.trace st ++ [Send ws (error "Not authenticated")]).
Proof.
  intros Hnone [(d & c & cp & ->) | (p & ->)];
    unfold onMessage, handle, bind; cbn; by rewrite Hnone.
Qed.

Lemma auth_session_state (st : Server.t S) (ws : conn)
    (userId documentId : Z) (user : User.t) (document : Document.t) :
  getUser (Server.storage st) userId = Resolved (Some user) →
  getDocument (Server.storage st) documentId = Resolved (Some document) →
  Document.ownerId document = userId
  ∨ isCollaborator (Server.storage st) userId documentId →
  let info := Client.mk userId documentId ws in
  ∃ tr,
    onMessage ws (Parsed (auth userId documentId)) st
    = Server.mk (Server.clients st ++ [info])
        (<[ws := info]> (Server.clientInfo st)) (Server.readyState st)
        (Server.storage st) (Server.trace st ++ tr).
Proof.
  intros Huser Hdoc Haccess info.
  unfold onMessage, handle, bind, await. cbn. rewrite Huser. cbn.
  rewrite Hdoc. cbn.
  destruct (decide (Document.ownerId document = userId)) as [Hown|Hown];
    [ rewrite bool_decide_eq_true_2 by done
    | rewrite bool_decide_eq_false_2 by done;
      destruct Haccess as [?|(cs & Hcs & Hex)]; [done|];
      cbn; rewrite Hcs; cbn; rewrite bool_decide_eq_true_2 by done ];
    cbn; unfold listActive; cbn;
    destruct (resolveUsers _ _); cbn; eexists;
    rewrite <- !app_assoc; reflexivity.
Qed.

(** X2: a successful [auth].  The user and the document exist and the user
    owns the document or holds a grant on it, whatever its role.  The
    session is appended to the registry and bound to the connection, the
    store is not written, the other open connections on the document are
    sent [user_joined], and the new connection is sent [document_data]
    and then the roster (or the error of the [catch] when resolving the
    roster rejects: the session stays registered all the same). *)
Theorem auth_registers_session (st : Server.t S) (ws : conn)
    (userId documentId : Z) (user : User.t) (document : Document.t) :
  getUser (Server.storage st) userId = Resolved (Some user) →
  getDocument (Server.storage st) documentId = Resolved (Some document) →
  Document.ownerId document = userId
  ∨ isCollaborator (Server.storage st) userId documentId →
  let st' := onMessage ws (Parsed (auth userId documentId)) st in
  let info := Client.mk userId documentId ws in
  Server.clients st' = Server.clients st ++ [info]
  ∧ Server.clientInfo st' = <[ws := info]> (Server.clientInfo st)
  ∧ Server.storage st' = Server.storage st
  ∧ emitted st st'
    = ((λ client, Send (Client.ws client)
                    (user_joined userId (User.username user) (User.name user)))
         <$> recipients st documentId (Some ws))
      ++ [Send ws (document_data documentId (Document.content document));
          Send ws (match listActive st' documentId with
                   | Resolved users => active_users users
                   | Rejected => error "Invalid message format"
                   end)].
Proof.
  intros Huser Hdoc Haccess st' info.
  set (roster := resolveUsers (Server.storage st)
                   (filter (λ client, Client.documentId client = documentId)
                      (Server.clients st ++ [info]))).
  assert (st' = Server.mk (Server.clients st ++ [info])
            (<[ws := info]> (Server.clientInfo st)) (Server.readyState st)
            (Server.storage st)
            (Server.trace st ++
             ((λ client, Send (Client.ws client)
                    (user_joined userId (User.username user) (User.name user)))
                <$> recipients st documentId (Some ws))
             ++ [Send ws (document_data documentId (Document.content document));
                 Send ws (match roster with
                          | Resolved users => active_users users
                          | Rejected => error "Invalid message format"
                          end)])) as Hst'.
  { unfold st', onMessage, handle, bind, await. cbn. rewrite Huser. cbn.
    rewrite Hdoc. cbn.
    destruct (decide (Document.ownerId document = userId)) as [Hown|Hown];
      [ rewrite bool_decide_eq_true_2 by done
      | rewrite bool_decide_eq_false_2 by done;
        destruct Haccess as [?|(cs & Hcs & Hex)]; [done|];
        cbn; rewrite Hcs; cbn; rewrite bool_decide_eq_true_2 by done ];
      cbn; rewrite (recipients_snoc_excluded st);
      unfold listActive; cbn; fold info; fold roster;
      destruct roster; cbn; by rewrite <- !app_assoc. }
  assert (listActive st' documentId = roster) as ->.
  { unfold listActive. by rewrite Hst'. }
  rewrite Hst'. cbn. repeat split. by apply emitted_app.
Qed.

(** Every way a message can leave the server: the registry grows by at
    most the sender's own tuple, only the sender's binding changes, the
    transport is not touched, and the trace is extended by replies to the
    sender, store writes of an edit, and sends to open connections that
    were registered before. *)
Lemma onMessage_shape (st : Server.t S) (ws : conn) (message : Message) :
  ∃ l ci s' tr,
    onMessage ws message st
    = Server.mk (Server.clients st ++ l) ci (Server.readyState st) s'
        (Server.trace st ++ tr)
    ∧ (l = [] ∨ ∃ u d, l = [Client.mk u d ws])
    ∧ (∀ c, c ≠ ws → ci !! c = Server.clientInfo st !! c)
    ∧ ((∀ d c cp, message ≠ Parsed (document_edit d c cp)) →
       s' = Server.storage st)
    ∧ Forall (λ e, match e with
                   | Persist d u =>
                       ∃ c cp, message = Parsed (document_edit d c cp)
                               ∧ u = DocumentUpdate.mk None (Some c)
                   | Send c m =>
                       c = ws
                       ∨ ∃ client, client ∈ Server.clients st
                                   ∧ Client.ws client = c
                                   ∧ c ≠ ws
                                   ∧ Server.readyState st c = OPEN
                   end) tr.
Proof.
  assert (∀ d m,
    Forall (λ e, match e with
                 | Persist d u =>
                     ∃ c cp, message = Parsed (document_edit d c cp)
                             ∧ u = DocumentUpdate.mk None (Some c)
                 | Send c m =>
                     c = ws
                     ∨ ∃ client, client ∈ Server.clients st
                                 ∧ Client.ws client = c
                                 ∧ c ≠ ws
                                 ∧ Server.readyState st c = OPEN
                 end)
      ((λ client, Send (Client.ws client) m) <$> recipients st d (Some ws)))
    as Hbroadcast.
  { intros d m. apply Forall_fmap, Forall_forall. intros client Hin.
    apply list_elem_of_filter in Hin as ((_ & Hne & Hopen) & Hin).
    right. exists client. repeat split; try done. congruence. }
  destruct message as [|[u d|d c cp|p|t Hu]];
    unfold onMessage, handle, bind, await; cbn.
  - shape_reply.
  - destruct (getUser (Server.storage st) u) as [[user|]|]; cbn;
      [|shape_reply|shape_reply].
    destruct (getDocument (Server.storage st) d) as [[document|]|]; cbn;
      [|shape_reply|shape_reply].
    assert (∀ tr1 m1,
      ∃ l ci s' tr,
        Server.mk (Server.clients st ++ [Client.mk u d ws])
          (<[ws := Client.mk u d ws]> (Server.clientInfo st))
          (Server.readyState st) (Server.storage st)
          (((Server.trace st
             ++ ((λ client, Send (Client.ws client) m1)
                   <$> recipients st d (Some ws)))
            ++ [Send ws (document_data d (Document.content document))])
           ++ [Send ws tr1])
        = Server.mk (Server.clients st ++ l) ci (Server.readyState st) s'
            (Server.trace st ++ tr)
        ∧ (l = [] ∨ ∃ u d, l = [Client.mk u d ws])
        ∧ (∀ c, c ≠ ws → ci !! c = Server.clientInfo st !! c)
        ∧ ((∀ d0 c cp, Parsed (auth u d) ≠ Parsed (document_edit d0 c cp)) →
           s' = Server.storage st)
        ∧ Forall (λ e, match e with
                       | Persist d0 u0 =>
                           ∃ c cp, Parsed (auth u d)
                                   = Parsed (document_edit d0 c cp)
                                   ∧ u0 = DocumentUpdate.mk None (Some c)
                       | Send c m =>
                           c = ws
                           ∨ ∃ client, client ∈ Server.clients st
                                       ∧ Client.ws client = c
                                       ∧ c ≠ ws
                                       ∧ Server.readyState st c = OPEN
                       end) tr) as Hjoined.
    { intros tr1 m1. eexists _, _, _, _. split.
      { rewrite <- !app_assoc. reflexivity. }
      split; [right; eauto|]. split.
      { intros c0 Hc0. by rewrite lookup_insert_ne. }
      split; [done|]. apply Forall_app. split; [apply Hbroadcast|].
      repeat constructor. }
    destruct (decide (Document.ownerId document = u)) as [Hown|Hown];
      [ rewrite bool_decide_eq_true_2 by done; cbn
      | rewrite bool_decide_eq_false_2 by done; cbn;
        destruct (getCollaborators (Server.storage st) d) as [cs|]; cbn;
          [|shape_reply];
        case_bool_decide; cbn; [|shape_reply] ];
      rewrite (recipients_snoc_excluded st);
      unfold listActive; cbn;
      destruct (resolveUsers _ _); cbn; apply Hjoined.
  - destruct (Server.clientInfo st !! ws) as [info|]; cbn; [|shape_reply].
    case_bool_decide; cbn; [shape_reply|].
    destruct (updateDocument (Server.storage st) d _) as [s' [o|]]; cbn.
    + eexists [], _, _, _. rewrite app_nil_r. split.
      { rewrite <- app_assoc. reflexivity. }
      split; [by left|]. split; [done|]. split.
      { intros Hne. by destruct (Hne d c cp). }
      constructor; [eauto|]. apply Hbroadcast.
    + eexists [], _, _, _. rewrite app_nil_r. split.
      { rewrite <- app_assoc. reflexivity. }
      split; [by left|]. split; [done|]. split.
      { intros Hne. by destruct (Hne d c cp). }
      repeat constructor. eauto.
  - destruct (Server.clientInfo st !! ws) as [info|]; cbn; [|shape_reply].
    destruct (getUser (Server.storage st) _) as [[user|]|]; cbn;
      [|shape_reply|shape_reply].
    eexists [], _, _, _. rewrite app_nil_r. split; [reflexivity|].
    split; [by left|]. split; [done|]. split; [done|]. apply Hbroadcast.
  - exists [], (Server.clientInfo st), (Server.storage st), [].
    rewrite !app_nil_r. destruct st; cbn. repeat split; auto.
Qed.

(** X3: what no message does.  Whatever arrives on a connection, the
    server removes no session (the registry grows by at most one tuple),
    keeps everything it had sent (the trace is only extended), leaves the
    binding of every other connection and the transport states alone,
    and writes the store only on a [document_edit]. *)
Theorem message_frame (st : Server.t S) (ws : conn) (message : Message) :
  let st' := onMessage ws message st in
  Server.readyState st' = Server.readyState st
  ∧ (∃ l, Server.clients st' = Server.clients st ++ l ∧ length l ≤ 1)
  ∧ (∃ tr, Server.trace st' = Server.trace st ++ tr)
  ∧ (∀ c, c ≠ ws → Server.clientInfo st' !! c = Server.clientInfo st !! c)
  ∧ ((∀ d c cp, message ≠ Parsed (document_edit d c cp)) →
     Server.storage st' = Server.storage st).
Proof.
  intros st'. destruct (onMessage_shape st ws message)
    as (l & ci & s' & tr & Hst' & Hl & Hci & Hs & _).
  unfold st'. rewrite Hst'. cbn. split; [done|]. split.
  { exists l. split; [done|]. destruct Hl as [->|(u & d & ->)]; cbn; lia. }
  split; [by exists tr|]. done.
Qed.

(** X4: who is written to.  Handling a message from [ws], the server
    sends only to [ws] itself or to a connection that already had a
    session in the registry and whose transport is open; it calls
    [updateDocument] only for a [document_edit], with that edit's
    content and nothing else in the update. *)
Theorem message_delivery (st : Server.t S) (ws : conn) (message : Message)
    (e : Event) :
  e ∈ emitted st (onMessage ws message st) →
  match e with
  | Send c m =>
      c = ws
      ∨ ∃ client, client ∈ Server.clients st ∧ Client.ws client = c
                  ∧ Server.readyState st c = OPEN
  | Persist d u =>
      ∃ c cp, message = Parsed (document_edit d c cp)
              ∧ u = DocumentUpdate.mk None (Some c)
  end.
Proof.
  destruct (onMessage_shape st ws message)
    as (l & ci & s' & tr & Hst' & _ & _ & _ & Hall).
  rewrite (emitted_app st _ tr) by (by rewrite Hst').
  intros Hin. rewrite Forall_forall in Hall. specialize (Hall e Hin).
  destruct e as [c m|d u]; [|done].
  destruct Hall as [?|(client & ? & ? & _ & ?)]; eauto.
Qed.

(** X5: a cursor position is relayed and never stored.  On an
    authenticated connection a [cursor_position] message leaves registry,
    bindings and store as they are; when the sender's user row is found,
    [cursor_update] with that user's identity and the position goes to
    the other open connections on the sender's document (not to the
    sender); when the row is missing the sender gets ['User not found']. *)
Theorem cursor_position_relayed (st : Server.t S) (ws : conn)
    (info : Client.t) (position : Json) :
  Server.clientInfo st !! ws = Some info →
  let st' := onMessage ws (Parsed (cursor_position position)) st in
  Server.clients st' = Server.clients st
  ∧ Server.clientInfo st' = Server.clientInfo st
  ∧ Server.storage st' = Server.storage st
  ∧ emitted st st'
    = match getUser (Server.storage st) (Client.userId info) with
      | Resolved (Some user) =>
          (λ client, Send (Client.ws client)
                       (cursor_update (User.id user) (User.username user)
                          (User.name user) position))
            <$> recipients st (Client.documentId info) (Some ws)
      | Resolved None => [Send ws (error "User not found")]
      | Rejected => [Send ws (error "Invalid message format")]
      end.
Proof.
  intros Hinfo st'. unfold st', onMessage, handle, bind, await. cbn.
  rewrite Hinfo. cbn.
  destruct (getUser (Server.storage st) (Client.userId info))
    as [[user|]|]; cbn; repeat split; by apply emitted_app.
Qed.

(** X6: edits stay on their document.  When a [document_edit] for
    document [d] arrives on [ws], a connection other than [ws] that has
    no session on [d] is sent nothing. *)
Theorem edit_stays_on_document (st : Server.t S) (ws c : conn)
    (d : Z) (content : string) (cursorPosition : option CursorPosition.t) :
  c ≠ ws →
  (∀ client, client ∈ Server.clients st → Client.ws client = c →
             Client.documentId client ≠ d) →
  sent_to c (emitted st (onMessage ws (Parsed (document_edit d content
                                                 cursorPosition)) st))
  = [].
Proof.
  intros Hc Hnone. apply elem_of_nil_inv. intros m Hm.
  apply elem_of_sent_to in Hm.
  destruct (Server.clientInfo st !! ws) as [info|] eqn:Hinfo.
  - destruct (decide (d = Client.documentId info)) as [->|Hne].
    + destruct (edit_bound_document st ws info content cursorPosition Hinfo)
        as (_ & _ & _ & _ & Htr).
      apply emitted_app in Htr. rewrite Htr in Hm.
      apply elem_of_cons in Hm as [Hm|Hm]; [done|].
      destruct (updateDocument _ _ _).2.
      * apply elem_of_broadcast in Hm as (client & Heq & Hin & Hd & _).
        simplify_eq. by eapply Hnone.
      * apply list_elem_of_singleton in Hm. by simplify_eq.
    + rewrite (edit_mismatch_state st ws info) in Hm by done.
      rewrite (emitted_app _ _ [Send ws (error "Invalid document ID")]) in Hm
        by done.
      apply list_elem_of_singleton in Hm. by simplify_eq.
  - assert (onMessage ws (Parsed (document_edit d content cursorPosition)) st
            = Server.mk (Server.clients st) (Server.clientInfo st)
                (Server.readyState st) (Server.storage st)
                (Server.trace st ++ [Send ws (error "Not authenticated")]))
      as Hst'.
    { unfold onMessage, handle, bind. cbn. by rewrite Hinfo. }
    rewrite Hst' in Hm.
    rewrite (emitted_app _ _ [Send ws (error "Not authenticated")]) in Hm
      by done.
    apply list_elem_of_singleton in Hm. by simplify_eq.
Qed.

(** X7: what closing does at most.  The close handler never touches the
    store, the bindings or the transport; it removes no tuple or exactly
    one; and everything it sends is a [user_left] carrying the user id
    the connection authenticated with.  On a connection that never
    authenticated it does nothing at all. *)
Theorem close_effects (st : Server.t S) (ws : conn) :
  let st' := onClose ws st in
  Server.storage st' = Server.storage st
  ∧ Server.clientInfo st' = Server.clientInfo st
  ∧ Server.readyState st' = Server.readyState st
  ∧ (Server.clients st' = Server.clients st
     ∨ ∃ i, i < length (Server.clients st)
            ∧ Server.clients st' = delete i (Server.clients st))
  ∧ (∀ e, e ∈ emitted st st' →
          ∃ c info, Server.clientInfo st !! ws = Some info
                    ∧ e = Send c (user_left (Client.userId info)))
  ∧ (Server.clientInfo st !! ws = None → st' = st).
Proof.
  intros st'. unfold st', onClose.
  destruct (Server.clientInfo st !! ws) as [info|] eqn:Hinfo.
  2: { unfold emitted. rewrite drop_all. repeat split; auto.
       intros e He. by apply elem_of_nil in He. }
  destruct (list_find _ (Server.clients st)) as [[i x]|] eqn:Hfind.
  2: { unfold emitted. rewrite drop_all. repeat split; auto; try done.
       intros e He. by apply elem_of_nil in He. }
  cbn. repeat split; try done.
  - right. exists i. split; [|done].
    apply list_find_Some in Hfind as (Hi & _). by eapply lookup_lt_Some.
  - intros e He. erewrite emitted_app in He by (cbn; reflexivity).
    apply list_elem_of_fmap in He as (client & -> & _). eauto.
Qed.

(** X8: closing the only session of a user on a document.  When the
    first tuple of the connection's user and document in the registry is
    the connection's own, the close handler removes exactly that tuple,
    keeps the others in order, and sends [user_left] to every open
    connection left on the document. *)
Theorem close_removes_own_tuple (st : Server.t S) (ws : conn)
    (info : Client.t) (pre post : list Client.t) :
  Server.clientInfo st !! ws = Some info →
  Server.clients st = pre ++ info :: post →
  Forall (λ c, ¬ (Client.userId c = Client.userId info
                  ∧ Client.documentId c = Client.documentId info)) pre →
  let st' := onClose ws st in
  Server.clients st' = pre ++ post
  ∧ emitted st st'
    = (λ client, Send (Client.ws client) (user_left (Client.userId info)))
        <$> filter (λ client,
                      Client.documentId client = Client.documentId info
                      ∧ Server.readyState st (Client.ws client) = OPEN)
                   (pre ++ post).
Proof.
  intros Hinfo Hclients Hpre st'. unfold st'.
  rewrite (close_own_tuple st ws info pre post) by done.
  split; [done|]. erewrite emitted_app by (cbn; reflexivity).
  f_equal. unfold recipients. cbn. apply list_filter_iff. intros client.
  split; [tauto|]. intros [? ?]. done.
Qed.

(** X9: closing twice.  With a single session of the user on the
    document, running the close handler again for the same connection
    changes nothing and sends nothing, and no tuple of that user is left
    on the document. *)
Theorem close_is_idempotent (st : Server.t S) (ws : conn) (info : Client.t)
    (pre post : list Client.t) :
  Server.clientInfo st !! ws = Some info →
  Server.clients st = pre ++ info :: post →
  Forall (λ c, ¬ (Client.userId c = Client.userId info
                  ∧ Client.documentId c = Client.documentId info))
         (pre ++ post) →
  onClose ws (onClose ws st) = onClose ws st
  ∧ Forall (λ c, Client.userId c ≠ Client.userId info)
      (filter (λ c, Client.documentId c = Client.documentId info)
              (Server.clients (onClose ws st))).
Proof. apply close_twice. Qed.

(** X10: subscribing and leaving.  A connection authenticates for a
    document on which its user has no session yet and then closes: the
    registry is back to what it was before the [auth]. *)
Theorem auth_then_close_restores_registry (st : Server.t S) (ws : conn)
    (userId documentId : Z) (user : User.t) (document : Document.t) :
  getUser (Server.storage st) userId = Resolved (Some user) →
  getDocument (Server.storage st) documentId = Resolved (Some document) →
  Document.ownerId document = userId
  ∨ isCollaborator (Server.storage st) userId documentId →
  Forall (λ c, ¬ (Client.userId c = userId
                  ∧ Client.documentId c = documentId))
         (Server.clients st) →
  Server.clients
    (onClose ws (onMessage ws (Parsed (auth userId documentId)) st))
  = Server.clients st.
Proof.
  intros Huser Hdoc Haccess Hfresh.
  destruct (auth_session_state st ws userId documentId user document
              Huser Hdoc Haccess) as (tr & Hst').
  rewrite (close_own_tuple _ ws (Client.mk userId documentId ws)
             (Server.clients st) []).
  - cbn. apply app_nil_r.
  - rewrite Hst'. cbn. apply lookup_insert_eq.
  - by rewrite Hst'.
  - done.
Qed.

End HandlerFacts.

(** * Properties of the stores *)

(** X11: read after write.  [updateDocument] on a document of the store
    resolves to the merged document, which is what [getDocument] returns
    from then on; on a missing id it resolves to nothing and changes
    nothing.  Either way no other document, no user and no grant is
    touched. *)
Theorem update_document_read_back (s : MemStorage.t) (id : Z)
    (u : DocumentUpdate.t) :
  let s' := (MemStorage.updateDocument s id u).1 in
  (MemStorage.updateDocument s id u).2
  = Resolved (MemStorage.documents s' !! id)
  ∧ MemStorage.documents s' !! id
    = (λ document, MemStorage.spread document u)
        <$> MemStorage.documents s !! id
  ∧ (∀ id', id' ≠ id →
            MemStorage.documents s' !! id' = MemStorage.documents s !! id')
  ∧ MemStorage.users s' = MemStorage.users s
  ∧ MemStorage.collaborators s' = MemStorage.collaborators s.
Proof.
  unfold MemStorage.updateDocument.
  destruct (MemStorage.documents s !! id) as [document|] eqn:Hdoc; cbn.
  - rewrite lookup_insert_eq. repeat split; try done.
    intros id' Hne. by rewrite lookup_insert_ne.
  - by rewrite Hdoc.
Qed.

(** X12: deleting a document.  Afterwards the id resolves to nothing, the
    result tells whether it was there, deleting again reports [false] and
    changes nothing, every other document is as before, and the grants
    on the deleted document are still in the store. *)
Theorem delete_document_effects (s : MemStorage.t) (id : Z) :
  let s' := (MemStorage.deleteDocument s id).1 in
  MemStorage.getDocument s' id = Resolved None
  ∧ ((MemStorage.deleteDocument s id).2 = true
     ↔ is_Some (MemStorage.documents s !! id))
  ∧ MemStorage.deleteDocument s' id = (s', false)
  ∧ (∀ id', id' ≠ id →
            MemStorage.documents s' !! id' = MemStorage.documents s !! id')
  ∧ MemStorage.getCollaborators s' id = MemStorage.getCollaborators s id.
Proof.
  cbn. unfold MemStorage.getDocument, MemStorage.deleteDocument. cbn.
  rewrite lookup_delete_eq, delete_delete_eq. split; [done|]. split.
  { apply bool_decide_eq_true. }
  split.
  { f_equal; try (apply bool_decide_eq_false; by intros [? ?]). }
  split; [|done]. intros id' Hne. by rewrite lookup_delete_ne.
Qed.

Lemma withUsers_Rejected (us : gmap Z User.t) (cs : list Collaborator.t) :
  MemStorage.withUsers us cs = Rejected
  ↔ Exists (λ collab, us !! Collaborator.userId collab = None) cs.
Proof.
  induction cs as [|collab cs IH]; cbn.
  - split; [done|]. intros Hex. by apply Exists_nil in Hex.
  - rewrite Exists_cons.
    destruct (us !! Collaborator.userId collab) as [user|] eqn:Hu.
    + destruct (MemStorage.withUsers us cs) as [l|]; split.
      * done.
      * intros [?|Hex]; [done|]. apply IH in Hex. done.
      * intros _. right. by apply IH.
      * done.
    + split; [by left | done].
Qed.

Lemma withUsers_Resolved (us : gmap Z User.t) (cs : list Collaborator.t)
    (l : list (Collaborator.t * User.t)) :
  MemStorage.withUsers us cs = Resolved l →
  l.*1 = cs
  ∧ l = omap (λ collab, (λ user, (collab, user))
                          <$> us !! Collaborator.userId collab) cs.
Proof.
  revert l. induction cs as [|collab cs IH]; cbn; intros l Hl.
  - by simplify_eq.
  - destruct (us !! Collaborator.userId collab) as [user|]; [|done].
    destruct (MemStorage.withUsers us cs) as [l'|]; [|done].
    simplify_eq. destruct (IH l' eq_refl) as [H1 H2]. cbn.
    split; by f_equal.
Qed.

(** X13: the grants of a document, in memory.  [getCollaborators] rejects
    exactly when some grant of the document names a user that is not in
    the store; otherwise it resolves to the grants of the document, in
    the order they were added, each paired with its user. *)
Theorem get_collaborators_resolution (s : MemStorage.t) (documentId : Z) :
  let grants :=
    filter (λ collab, Collaborator.documentId collab = documentId)
           (MemStorage.collaborators s) in
  (MemStorage.getCollaborators s documentId = Rejected
   ↔ ∃ collab, collab ∈ grants
               ∧ MemStorage.users s !! Collaborator.userId collab = None)
  ∧ ∀ l, MemStorage.getCollaborators s documentId = Resolved l →
         l.*1 = grants
         ∧ ∀ collab user, (collab, user) ∈ l →
             MemStorage.users s !! Collaborator.userId collab = Some user.
Proof.
  intros grants. unfold MemStorage.getCollaborators. fold grants. split.
  - rewrite withUsers_Rejected, Exists_exists. done.
  - intros l Hl. apply withUsers_Resolved in Hl as [Hfst Hl].
    split; [done|]. intros collab user Hin. rewrite Hl in Hin.
    apply list_elem_of_omap in Hin as (c & _ & Hc).
    destruct (MemStorage.users s !! Collaborator.userId c) eqn:Hu;
      by simplify_eq/=.
Qed.

(** On the same tables, a reachable database gives the same user,
    document and update results as the in-memory store, and the same
    grants whenever the in-memory store resolves them; an unreachable
    database rejects every call and keeps its tables. *)
Lemma stores_agree (db : MemStorage.t) (id : Z) (u : DocumentUpdate.t) :
  let up := DatabaseStorage.mk db true in
  let down := DatabaseStorage.mk db false in
  getUser up id = getUser db id
  ∧ getDocument up id = getDocument db id
  ∧ (updateDocument up id u).2 = (updateDocument db id u).2
  ∧ DatabaseStorage.tables (updateDocument up id u).1
    = (updateDocument db id u).1
  ∧ (∀ l, getCollaborators db id = Resolved l →
          getCollaborators up id = Resolved l)
  ∧ getUser down id = Rejected
  ∧ getDocument down id = Rejected
  ∧ updateDocument down id u = (down, Rejected)
  ∧ getCollaborators down id = Rejected.
Proof.
  cbn. unfold DatabaseStorage.updateDocument. cbn.
  destruct (MemStorage.updateDocument db id u) as [db' r] eqn:Hup. cbn.
  repeat split; try done.
  intros l Hl. unfold DatabaseStorage.getCollaborators, DatabaseStorage.query.
  cbn. apply withUsers_Resolved in Hl as [_ ->]. done.
Qed.

(** X14: an accepted edit changes the content and nothing else.  With the
    in-memory store, a [document_edit] on a connection bound to an
    existing document replaces that document's content by the message's
    and keeps its id, title and owner; every other document, the users
    and the grants are as before. *)
Theorem edit_changes_only_content (st : Server.t MemStorage.t) (ws : conn)
    (info : Client.t) (document : Document.t) (content : string)
    (cursorPosition : option CursorPosition.t) :
  Server.clientInfo st !! ws = Some info →
  MemStorage.documents (Server.storage st) !! Client.documentId info
  = Some document →
  let d := Client.documentId info in
  let s' := Server.storage
              (onMessage ws (Parsed (document_edit d content cursorPosition))
                 st) in
  MemStorage.documents s' !! d
  = Some (Document.mk (Document.id document) (Document.title document)
            (Some content) (Document.ownerId document))
  ∧ (∀ id', id' ≠ d →
            MemStorage.documents s' !! id'
            = MemStorage.documents (Server.storage st) !! id')
  ∧ MemStorage.users s' = MemStorage.users (Server.storage st)
  ∧ MemStorage.collaborators s'
    = MemStorage.collaborators (Server.storage st).
Proof.
  intros Hinfo Hdoc d s'.
  destruct (edit_bound_document st ws info content cursorPosition Hinfo)
    as (_ & _ & _ & Hs & _).
  subst d s'. cbn in Hs. rewrite Hs. cbn.
  unfold MemStorage.updateDocument. rewrite Hdoc. cbn.
  rewrite lookup_insert_eq. repeat split; try done.
  intros id' Hne. by rewrite lookup_insert_ne.
Qed.

Lemma edit_changes_only_content_witness :
  let st := Scenario.two_participants in
  Server.clientInfo st !! 0 = Some (Client.mk 1 1 0)
  ∧ MemStorage.documents (Server.storage st) !! 1%Z = Some Scenario.notes
  ∧ MemStorage.documents
      (Server.storage (onMessage 0 (Parsed (document_edit 1 "X" None)) st))
      !! 1%Z
    = Some (Document.mk 1 "Notes" (Some "X") 1).
Proof.
  intros st. split; [reflexivity|]. split; [reflexivity|].
  apply (edit_changes_only_content st 0 (Client.mk 1 1 0) Scenario.notes
           "X" None); reflexivity.
Defined.

Section GrantFacts.
Implicit Types (l : list Collaborator.t) (k : Z).

Lemma find_grant_None l k :
  list_find (λ collab, Collaborator.id collab = k) l = None →
  Forall (λ collab, Collaborator.id collab ≠ k) l.
Proof. intros Hnone. by apply (proj1 (list_find_None _ _)) in Hnone. Qed.

Lemma map_grant_absent l k (f : Collaborator.t → Collaborator.t) :
  Forall (λ collab, Collaborator.id collab ≠ k) l →
  (λ collab, if decide (Collaborator.id collab = k) then f collab else collab)
    <$> l = l
  ∧ filter (λ collab, Collaborator.id collab ≠ k) l = l.
Proof.
  induction 1 as [|c l Hc _ [IH1 IH2]]; [done|]. cbn -[filter].
  rewrite decide_False by done. rewrite filter_cons_True by done.
  by rewrite IH1, IH2.
Qed.

Lemma find_grant_Some l k i c (f : Collaborator.t → Collaborator.t) :
  NoDup (Collaborator.id <$> l) →
  list_find (λ collab, Collaborator.id collab = k) l = Some (i, c) →
  <[i := f c]> l
  = (λ collab, if decide (Collaborator.id collab = k) then f collab
               else collab) <$> l
  ∧ delete i l = filter (λ collab, Collaborator.id collab ≠ k) l.
Proof.
  revert i. induction l as [|x l IH]; intros i Hnd Hfind; [done|].
  cbn in Hnd. apply NoDup_cons in Hnd as [Hx Hnd]. cbn in Hfind.
  destruct (decide (Collaborator.id x = k)) as [Hk|Hk].
  - simplify_eq. cbn -[filter]. rewrite decide_True by done.
    assert (Forall (λ collab, Collaborator.id collab ≠ Collaborator.id c) l)
      as Habsent.
    { apply Forall_forall. intros y Hy Heq. apply Hx.
      apply list_elem_of_fmap. by exists y. }
    destruct (map_grant_absent l (Collaborator.id c) f Habsent) as [-> Hf].
    split; [done|]. rewrite filter_cons_False by (by intros ?). by rewrite Hf.
  - destruct (list_find _ l) as [[j y]|] eqn:Hl; [|done]. cbn in Hfind.
    simplify_eq. destruct (IH j Hnd eq_refl) as [H1 H2]. cbn -[filter].
    rewrite decide_False by done. rewrite filter_cons_True by done.
    split; f_equal; [exact H1 | exact H2].
Qed.

End GrantFacts.

(** X15: changing and removing a grant.  With grant ids unique (as the map
    keeps them), [updateCollaboratorRole] gives the grant with that id
    the new role, keeping its document and user, [removeCollaborator]
    drops that grant, and neither touches any other grant or their
    order; an unknown id changes nothing and resolves to nothing
    ([false] for the removal). *)
Theorem grant_update_and_removal (s : MemStorage.t) (id : Z) (role : string) :
  NoDup (Collaborator.id <$> MemStorage.collaborators s) →
  let updated := MemStorageOps.updateCollaboratorRole s id role in
  let removed := MemStorageOps.removeCollaborator s id in
  let present :=
    bool_decide (Exists (λ collab, Collaborator.id collab = id)
                        (MemStorage.collaborators s)) in
  MemStorage.collaborators updated.1
  = (λ collab, if decide (Collaborator.id collab = id)
               then MemStorageOps.withRole collab role else collab)
      <$> MemStorage.collaborators s
  ∧ MemStorage.collaborators removed.1
    = filter (λ collab, Collaborator.id collab ≠ id)
             (MemStorage.collaborators s)
  ∧ removed.2 = Resolved present
  ∧ (present = false → updated = (s, Resolved None) ∧ removed.1 = s).
Proof.
  intros Hnd updated removed present.
  subst updated removed present.
  unfold MemStorageOps.updateCollaboratorRole,
    MemStorageOps.removeCollaborator, MemStorageOps.findCollaborator.
  destruct (list_find _ (MemStorage.collaborators s)) as [[i c]|] eqn:Hfind.
  - destruct (find_grant_Some _ id i c
                (λ collab, MemStorageOps.withRole collab role) Hnd Hfind)
      as [Hup Hrm].
    assert (bool_decide (Exists (λ collab, Collaborator.id collab = id)
                           (MemStorage.collaborators s)) = true) as Hp.
    { apply bool_decide_eq_true, Exists_exists.
      apply list_find_Some in Hfind as (Hi & Hc & _).
      exists c. split; [|done]. by eapply list_elem_of_lookup_2. }
    cbn. rewrite Hp, Hup, Hrm. repeat split; try done.
  - pose proof (find_grant_None _ _ Hfind) as Habsent.
    destruct (map_grant_absent _ id
                (λ collab, MemStorageOps.withRole collab role) Habsent)
      as [Hup Hrm].
    assert (bool_decide (Exists (λ collab, Collaborator.id collab = id)
                           (MemStorage.collaborators s)) = false) as Hp.
    { apply bool_decide_eq_false. intros Hex.
      apply Exists_exists in Hex as (y & Hy & Hid).
      rewrite Forall_forall in Habsent. by apply (Habsent y). }
    cbn. rewrite Hp, Hup, Hrm. by destruct s.
Qed.

Lemma grant_update_and_removal_witness :
  NoDup (Collaborator.id <$> MemStorage.collaborators Scenario.store)
  ∧ MemStorage.collaborators
      (MemStorageOps.updateCollaboratorRole Scenario.store 1 "editor").1
    = [Collaborator.mk 1 1 2 "editor"].
Proof.
  assert (NoDup (Collaborator.id <$> MemStorage.collaborators Scenario.store))
    as Hnd.
  { cbn. apply NoDup_singleton. }
  split; [done|].
  exact (proj1 (grant_update_and_removal Scenario.store 1 "editor" Hnd)).
Defined.

(** On the same rows, with unique grant ids, the database versions of the
    two grant operations compute what the in-memory ones compute. *)
Lemma grant_operations_agree (s : MemStorage.t) (id : Z) (role : string) :
  NoDup (Collaborator.id <$> MemStorage.collaborators s) →
  DatabaseStorage.tables
    (DatabaseStorageOps.updateCollaboratorRole
       (DatabaseStorage.mk s true) id role).1
  = (MemStorageOps.updateCollaboratorRole s id role).1
  ∧ DatabaseStorage.tables
      (DatabaseStorageOps.removeCollaborator (DatabaseStorage.mk s true) id).1
    = (MemStorageOps.removeCollaborator s id).1.
Proof.
  intros Hnd.
  unfold MemStorageOps.updateCollaboratorRole,
    MemStorageOps.removeCollaborator, MemStorageOps.findCollaborator.
  destruct (list_find _ (MemStorage.collaborators s)) as [[i c]|] eqn:Hfind.
  - destruct (find_grant_Some _ id i c
                (λ collab, MemStorageOps.withRole collab role) Hnd Hfind)
      as [Hup Hrm].
    cbn. by rewrite Hup, Hrm.
  - pose proof (find_grant_None _ _ Hfind) as Habsent.
    destruct (map_grant_absent _ id
                (λ collab, MemStorageOps.withRole collab role) Habsent)
      as [Hup Hrm].
    cbn. rewrite Hup, Hrm. by destruct s.
Qed.

(** X16: ids are never reused.  While the ids in the store lie below the
    counters (as they do from the empty store on), [createDocument] and
    [addCollaborator] hand out an id no document, respectively no grant,
    has; the new document can be read back, the new grant is last in the
    list, nothing that was there is overwritten, grant ids stay unique,
    and the ids again lie below the incremented counters. *)
Theorem created_ids_are_fresh (s : MemStorage.t) (dc cc : Z)
    (insertDocument : InsertDocument.t)
    (insertCollaborator : InsertCollaborator.t) :
  MemStorageOps.ids_below s dc cc →
  let '(s1, dc', document) :=
    MemStorageOps.createDocument s dc insertDocument in
  let '(s2, cc', collaborator) :=
    MemStorageOps.addCollaborator s cc insertCollaborator in
  MemStorage.documents s !! Document.id document = None
  ∧ MemStorage.getDocument s1 (Document.id document)
    = Resolved (Some document)
  ∧ (∀ id, id ≠ Document.id document →
           MemStorage.documents s1 !! id = MemStorage.documents s !! id)
  ∧ MemStorageOps.ids_below s1 dc' cc
  ∧ Forall (λ collab, Collaborator.id collab ≠ Collaborator.id collaborator)
           (MemStorage.collaborators s)
  ∧ MemStorage.collaborators s2
    = MemStorage.collaborators s ++ [collaborator]
  ∧ (NoDup (Collaborator.id <$> MemStorage.collaborators s) →
     NoDup (Collaborator.id <$> MemStorage.collaborators s2))
  ∧ MemStorageOps.ids_below s2 dc cc'.
Proof.
  intros [Hdocs Hgrants]. cbn.
  assert (MemStorage.documents s !! dc = None) as Hfresh.
  { destruct (MemStorage.documents s !! dc) as [document|] eqn:Hd; [|done].
    apply Hdocs in Hd. lia. }
  assert (Forall (λ collab, Collaborator.id collab ≠ cc)
            (MemStorage.collaborators s)) as Hnew.
  { eapply Forall_impl; [exact Hgrants|]. cbn. intros; lia. }
  split; [done|]. split.
  { unfold MemStorage.getDocument. cbn. by rewrite lookup_insert_eq. }
  split.
  { intros id Hne. by rewrite lookup_insert_ne. }
  split.
  { split; cbn.
    - intros id document Hlook.
      destruct (decide (id = dc)) as [->|Hne]; [lia|].
      rewrite lookup_insert_ne in Hlook by done. apply Hdocs in Hlook. lia.
    - done. }
  split; [done|]. split; [done|]. split.
  { intros Hnd. rewrite fmap_app. apply NoDup_app. split; [done|]. split.
    - intros k Hk Hk'. apply list_elem_of_singleton in Hk'. cbn in Hk'.
      apply list_elem_of_fmap in Hk as (y & -> & Hy).
      rewrite Forall_forall in Hnew. by apply (Hnew y).
    - apply NoDup_singleton. }
  split; cbn.
  - done.
  - apply Forall_app. split.
    + eapply Forall_impl; [exact Hgrants|]. cbn. intros; lia.
    + repeat constructor. cbn. lia.
Qed.

Lemma created_ids_are_fresh_witness :
  MemStorageOps.ids_below Scenario.store 2 2
  ∧ MemStorage.documents Scenario.store !! 2%Z = None.
Proof.
  assert (MemStorageOps.ids_below Scenario.store 2 2) as Hinv.
  { split.
    - intros id document Hlook.
      unfold Scenario.store, Scenario.store_with_role in Hlook. cbn in Hlook.
      apply lookup_singleton_Some in Hlook as [<- _]; lia.
    - repeat constructor; cbn; lia. }
  split; [done|].
  exact (proj1 (created_ids_are_fresh Scenario.store 2 2
                  (InsertDocument.mk "Copy" None 3)
                  (InsertCollaborator.mk 1 3 "editor") Hinv)).
Defined.

(** X17: shared documents after a deletion.  The documents shared with a
    user follow the order of the user's grants; once a document is
    deleted it is no longer among them, although the grant stays, and
    the shared documents of the other grants are unchanged. *)
Theorem shared_documents_after_delete (s : MemStorage.t) (userId id : Z) :
  let s' := (MemStorage.deleteDocument s id).1 in
  MemStorageOps.getSharedDocuments s' userId
  = omap (λ collab,
            MemStorage.documents s !! Collaborator.documentId collab)
         (filter (λ collab, Collaborator.documentId collab ≠ id)
                 (filter (λ collab, Collaborator.userId collab = userId)
                         (MemStorage.collaborators s)))
  ∧ MemStorage.collaborators s' = MemStorage.collaborators s.
Proof.
  cbn. split; [|done]. unfold MemStorageOps.getSharedDocuments. cbn.
  induction (filter _ (MemStorage.collaborators s)) as [|c l IH]; [done|].
  cbn -[filter]. destruct (decide (Collaborator.documentId c = id)) as [Heq|Hne].
  - rewrite Heq at 1. rewrite lookup_delete_eq.
    rewrite filter_cons_False by (by intros ?). done.
  - rewrite lookup_delete_ne by done. rewrite filter_cons_True by done.
    cbn -[filter]. by rewrite IH.
Qed.

(** * Properties of the REST routes *)

Section RouteFacts.
Context {S : Type} `{IStorage S} `{IStorageAdmin S}.

(** X18: who can write through PATCH /api/documents/:id.  If the route
    changed the store, then the requester was logged in, the document
    existed, and the requester owned it or the first grant found for the
    requester had a role other than ['viewer']; the change is the one
    [updateDocument] made with the request body. *)
Theorem patch_writes_only_when_allowed (req_user : option User.t)
    (documentId : option Z) (body : DocumentUpdate.t) (s : S) :
  (Routes.patchDocument req_user documentId body s).1 ≠ s →
  ∃ user d document,
    req_user = Some user ∧ documentId = Some d
    ∧ getDocument s d = Resolved (Some document)
    ∧ (Document.ownerId document = User.id user
       ∨ ∃ collaborators i grant,
           getCollaborators s d = Resolved collaborators
           ∧ list_find (λ collab, Collaborator.userId collab.1 = User.id user)
                       collaborators = Some (i, grant)
           ∧ Collaborator.role grant.1 ≠ "viewer")
    ∧ (Routes.patchDocument req_user documentId body s).1
      = (updateDocument s d body).1.
Proof.
  unfold Routes.patchDocument, Routes.mayEdit.
  destruct req_user as [user|]; [|done].
  destruct documentId as [d|]; [|done].
  destruct (getDocument s d) as [[document|]|] eqn:Hdoc; [|done|done].
  case_bool_decide as Hown.
  - destruct (updateDocument s d body) as [s' [o|]] eqn:Hup; cbn;
      intros _; exists user, d, document; repeat split; auto;
      by rewrite Hup.
  - destruct (getCollaborators s d) as [cs|] eqn:Hcs; [|done].
    destruct (list_find _ cs) as [[i grant]|] eqn:Hfind; [|done].
    case_bool_decide as Hrole; [done|]. cbn.
    destruct (updateDocument s d body) as [s' [o|]] eqn:Hup; cbn;
      intros _; exists user, d, document; repeat split; auto;
      try (by rewrite Hup); right; exists cs, i, grant; done.
Qed.

(** X19: a viewer is refused by PATCH /api/documents/:id.  A logged-in
    requester who does not own the document and whose first grant on it
    has role ['viewer'], or who has no grant, gets status 403 and the
    store is left as it was. *)
Theorem patch_refuses_viewer (user : User.t) (d : Z) (document : Document.t)
    (collaborators : list (Collaborator.t * User.t))
    (body : DocumentUpdate.t) (s : S) :
  getDocument s d = Resolved (Some document) →
  Document.ownerId document ≠ User.id user →
  getCollaborators s d = Resolved collaborators →
  match list_find (λ collab, Collaborator.userId collab.1 = User.id user)
                  collaborators with
  | Some (_, grant) => Collaborator.role grant.1 = "viewer"
  | None => True
  end →
  Routes.patchDocument (Some user) (Some d) body s
  = (s, Routes.json_message 403 "No permission to edit this document").
Proof.
  intros Hdoc Hown Hcs Hgrant. unfold Routes.patchDocument, Routes.mayEdit.
  rewrite Hdoc. rewrite bool_decide_eq_false_2 by done. rewrite Hcs.
  destruct (list_find _ collaborators) as [[i grant]|]; [|done].
  by rewrite bool_decide_eq_true_2.
Qed.

(** X20: only the owner deletes.  If DELETE /api/documents/:id changed the
    store, the requester was logged in and owned the document, and the
    change is the one [deleteDocument] made. *)
Theorem delete_route_only_owner (req_user : option User.t)
    (documentId : option Z) (s : S) :
  (Api.deleteDocumentRoute req_user documentId s).1 ≠ s →
  ∃ user d document,
    req_user = Some user ∧ documentId = Some d
    ∧ getDocument s d = Resolved (Some document)
    ∧ Document.ownerId document = User.id user
    ∧ (Api.deleteDocumentRoute req_user documentId s).1
      = (deleteDocument s d).1.
Proof.
  unfold Api.deleteDocumentRoute.
  destruct req_user as [user|]; [|done].
  destruct documentId as [d|]; [|done].
  destruct (getDocument s d) as [[document|]|] eqn:Hdoc; [|done|done].
  case_bool_decide as Hown; [done|].
  destruct (deleteDocument s d) as [s' [o|]] eqn:Hdel; cbn; intros _;
    exists user, d, document; repeat split; auto; by rewrite Hdel.
Qed.

(** X21: only the owner changes grants.  If PATCH or DELETE
    /api/collaborators/:id changed the store, the store exposes its
    grants, the grant with that id exists, its document exists and the
    requester owns it; for PATCH the new role is moreover one of
    ['editor'], ['viewer'], ['commenter']. *)
Theorem grant_routes_only_owner (req_user : option User.t)
    (collaboratorId : option Z) (role : option string) (s : S) :
  (Api.patchCollaboratorRoute req_user collaboratorId role s).1 ≠ s
  ∨ (Api.deleteCollaboratorRoute req_user collaboratorId s).1 ≠ s →
  ∃ user id grants i grant document,
    req_user = Some user ∧ collaboratorId = Some id
    ∧ collaboratorsField s = Some grants
    ∧ list_find (λ c, Collaborator.id c = id) grants = Some (i, grant)
    ∧ getDocument s (Collaborator.documentId grant)
      = Resolved (Some document)
    ∧ Document.ownerId document = User.id user
    ∧ ((Api.patchCollaboratorRoute req_user collaboratorId role s).1 ≠ s →
       ∃ r, role = Some r ∧ r ∈ ["editor"; "viewer"; "commenter"]).
Proof.
  unfold Api.patchCollaboratorRoute, Api.deleteCollaboratorRoute,
    Api.ownedCollaborator.
  destruct req_user as [user|]; [|by intros [?|?]].
  destruct collaboratorId as [id|]; [|by intros [?|?]].
  destruct (collaboratorsField s) as [grants|]; [|by intros [?|?]].
  destruct (list_find _ grants) as [[i grant]|] eqn:Hfind;
    [|by intros [?|?]].
  destruct (getDocument s (Collaborator.documentId grant))
    as [[document|]|] eqn:Hdoc; [|by intros [?|?]|by intros [?|?]].
  case_bool_decide as Hown; [by intros [?|?]|].
  intros _.
  exists user, id, grants, i, grant, document. repeat split; try done.
  destruct role as [r|]; cbn; [|by intros Hne].
  case_bool_decide as Hrole; cbn; [|by intros Hne]. intros _. by exists r.
Qed.

End RouteFacts.

(** X22: the collaborator routes with the database store.  The routes
    read the grants from the store object's [collaborators] field, which
    the database store does not have: for a logged-in requester and a
    numeric id, PATCH and DELETE /api/collaborators/:id always answer 500
    and leave the database alone. *)
Theorem grant_routes_fail_on_database (user : User.t) (id : Z)
    (role : option string) (s : DatabaseStorage.t) :
  Api.patchCollaboratorRoute (Some user) (Some id) role s
  = (s, Api.message 500 "Error updating collaborator")
  ∧ Api.deleteCollaboratorRoute (Some user) (Some id) s
    = (s, Api.message 500 "Error removing collaborator").
Proof. done. Qed.

(** X23: deleting over REST, then subscribing.  With the in-memory store,
    the owner's DELETE of an existing document answers 204 and removes
    the document; an [auth] for it from an existing user is afterwards
    answered with ['Document not found'] and registers nothing. *)
Theorem owner_delete_then_auth (st : Server.t MemStorage.t) (owner : User.t)
    (d : Z) (document : Document.t) (ws : conn) (userId : Z) (user : User.t) :
  MemStorage.documents (Server.storage st) !! d = Some document →
  Document.ownerId document = User.id owner →
  MemStorage.users (Server.storage st) !! userId = Some user →
  let result := Api.deleteDocumentRoute (Some owner) (Some d)
                  (Server.storage st) in
  let st1 := Server.with_storage result.1 st in
  result.2 = Api.no_content
  ∧ MemStorage.documents result.1 !! d = None
  ∧ onMessage ws (Parsed (auth userId d)) st1
    = Server.mk (Server.clients st) (Server.clientInfo st)
        (Server.readyState st) result.1
        (Server.trace st ++ [Send ws (error "Document not found")]).
Proof.
  intros Hdoc Hown Huser result st1.
  assert (result = ((MemStorage.deleteDocument (Server.storage st) d).1,
                    Api.no_content)) as ->.
  { unfold result, Api.deleteDocumentRoute. cbn.
    unfold MemStorage.getDocument. rewrite Hdoc.
    by rewrite bool_decide_eq_false_2 by (by intros ?). }
  subst st1. cbn. split; [done|]. split; [apply lookup_delete_eq|].
  unfold onMessage, handle, bind, await. cbn.
  unfold MemStorage.getUser, MemStorage.getDocument. cbn.
  rewrite Huser. cbn. by rewrite lookup_delete_eq.
Qed.

Lemma owner_delete_then_auth_witness :
  let st := Scenario.two_participants in
  MemStorage.documents (Server.storage st) !! 1%Z = Some Scenario.notes
  ∧ (Api.deleteDocumentRoute (Some Scenario.alice) (Some 1%Z)
       (Server.storage st)).2 = Api.no_content.
Proof.
  intros st. split; [reflexivity|].
  apply (owner_delete_then_auth st Scenario.alice 1 Scenario.notes 7 3
           Scenario.carol); reflexivity.
Defined.

Section AccessFacts.
Context {S : Type} `{IStorage S}.

(** X24: reading over REST and subscribing over the WebSocket ask the same
    question.  For an existing user and document whose grants can be
    read, either GET /api/documents/:id returns the document and [auth]
    registers the session, or GET answers 403 and [auth] registers
    nothing. *)
Theorem read_access_is_subscription_access (st : Server.t S) (ws : conn)
    (user user' : User.t) (d : Z) (document : Document.t)
    (collaborators : list (Collaborator.t * User.t)) :
  getDocument (Server.storage st) d = Resolved (Some document) →
  getCollaborators (Server.storage st) d = Resolved collaborators →
  getUser (Server.storage st) (User.id user) = Resolved (Some user') →
  let response := Api.getDocumentRoute (Some user) (Some d)
                    (Server.storage st) in
  let st' := onMessage ws (Parsed (auth (User.id user) d)) st in
  (response = Api.document_with_collaborators document collaborators
   ∧ Server.clients st'
     = Server.clients st ++ [Client.mk (User.id user) d ws])
  ∨ (response = Api.message 403 "No permission to access this document"
     ∧ Server.clients st' = Server.clients st).
Proof.
  intros Hdoc Hcs Huser response st'.
  destruct (decide (Document.ownerId document = User.id user
                    ∨ Exists (λ collab,
                                Collaborator.userId collab.1 = User.id user)
                             collaborators)) as [Hyes|Hno].
  - left. split.
    + unfold response, Api.getDocumentRoute. rewrite Hdoc, Hcs.
      destruct Hyes as [Hown|Hex].
      * by rewrite bool_decide_eq_true_2.
      * case_bool_decide; [done|]. by rewrite bool_decide_eq_true_2.
    + destruct (auth_session_state st ws (User.id user) d user' document
                  Huser Hdoc) as (tr & Hst').
      { destruct Hyes as [?|Hex]; [by left|]. right. by exists collaborators. }
      unfold st'. by rewrite Hst'.
  - right.
    assert (Document.ownerId document ≠ User.id user) as Hown
      by (intros ?; apply Hno; by left).
    assert (¬ Exists (λ collab, Collaborator.userId collab.1 = User.id user)
                     collaborators) as Hex
      by (intros ?; apply Hno; by right).
    split.
    + unfold response, Api.getDocumentRoute. rewrite Hdoc, Hcs.
      rewrite bool_decide_eq_false_2 by done.
      by rewrite bool_decide_eq_false_2.
    + unfold st', onMessage, handle, bind, await. cbn.
      rewrite Huser. cbn. rewrite Hdoc. cbn.
      rewrite bool_decide_eq_false_2 by done. cbn. rewrite Hcs. cbn.
      by rewrite bool_decide_eq_false_2.
Qed.

End AccessFacts.

(** X25: threads of comments.  The response lists the comments without a
    parent, in order; a comment is listed as a reply exactly when it has
    a parent id and that id is the id of a comment without a parent.
    So a reply to a reply, or to a comment that is not in the list, is
    left out of the response altogether. *)
Theorem comment_threads (comments : list Api.Comment.t) :
  let threads := Api.commentsWithReplies comments in
  threads.*1 = filter (λ c, Api.hasParent c = false) comments
  ∧ (∀ c, (∃ thread, thread ∈ threads ∧ c ∈ thread.2)
          ↔ c ∈ comments ∧ Api.hasParent c = true
            ∧ ∃ p, p ∈ comments ∧ Api.hasParent p = false
                   ∧ Api.Comment.parentId c = Some (Api.Comment.id p))
  ∧ (∀ c, Api.hasParent c = true →
          (∀ p, p ∈ comments →
                Api.Comment.parentId c = Some (Api.Comment.id p) →
                Api.hasParent p = true) →
          ∀ thread, thread ∈ threads → c ≠ thread.1 ∧ c ∉ thread.2).
Proof.
  intros threads.
  assert (∀ thread, thread ∈ threads ↔
            thread.1 ∈ comments ∧ Api.hasParent thread.1 = false
            ∧ thread.2
              = filter (λ child, Api.Comment.parentId child
                                 = Some (Api.Comment.id thread.1))
                       (filter (λ c, Api.hasParent c = true) comments))
    as Hthread.
  { intros [p rs]. unfold threads, Api.commentsWithReplies.
    rewrite list_elem_of_fmap. setoid_rewrite list_elem_of_filter. cbn.
    split.
    - intros (p' & Heq & Htop & Hin). by simplify_eq.
    - intros (Hin & Htop & ->). by exists p. }
  assert (∀ c, (∃ thread, thread ∈ threads ∧ c ∈ thread.2)
          ↔ c ∈ comments ∧ Api.hasParent c = true
            ∧ ∃ p, p ∈ comments ∧ Api.hasParent p = false
                   ∧ Api.Comment.parentId c = Some (Api.Comment.id p))
    as Hreply.
  { intros c. split.
    - intros (thread & Hin & Hc). apply Hthread in Hin as (Hp & Htop & Hrs).
      rewrite Hrs in Hc. apply list_elem_of_filter in Hc as [Hpar Hc].
      apply list_elem_of_filter in Hc as [Hhas Hc]. eauto 10.
    - intros (Hc & Hhas & p & Hp & Htop & Hpar).
      exists (p, filter (λ child, Api.Comment.parentId child
                                  = Some (Api.Comment.id p))
                   (filter (λ c, Api.hasParent c = true) comments)).
      split; [by apply Hthread|]. cbn.
      apply list_elem_of_filter. split; [done|].
      by apply list_elem_of_filter. }
  split; [|split; [done|]].
  - unfold threads, Api.commentsWithReplies.
    rewrite <- list_fmap_compose. apply list_fmap_id.
  - intros c Hhas Hlost thread Hin. split.
    + intros ->. apply Hthread in Hin as (_ & Htop & _). congruence.
    + intros Hc. destruct (proj1 (Hreply c)) as (_ & _ & p & Hp & Htop & Hpar);
        [by exists thread|].
      specialize (Hlost p Hp Hpar). congruence.
Qed.

(** * Further properties of the client edit history *)

Section EditorActionFacts.
Import Editor EditorActions.

Lemma handleInput_post (render st : t) :
  isUndoRedoAction (handleInput render st) = false
  ∧ content (handleInput render st) = Some (innerHTML (handleInput render st)).
Proof.
  unfold handleInput. destruct (content render) as [c|]; cbn; [|done].
  destruct (isUndoRedoAction st) eqn:Hflag; cbn; [done|].
  destruct (bool_decide (c = "")); cbn; by rewrite ?Hflag.
Qed.

Lemma removelast_Forall (P : string → Prop) (l : list string) :
  Forall P l → Forall P (removelast l).
Proof.
  induction 1 as [|x l Hx Hl IH]; [constructor|].
  destruct l as [|y l]; [constructor|].
  change (removelast (x :: y :: l)) with (x :: removelast (y :: l)).
  by constructor.
Qed.

Lemma handleInput_clean (render st : t) :
  Forall (λ s, s ≠ "") (undoStack st) →
  Forall (λ s, s ≠ "") (redoStack st) →
  Forall (λ s, s ≠ "") (undoStack (handleInput render st))
  ∧ Forall (λ s, s ≠ "") (redoStack (handleInput render st)).
Proof.
  intros HU HR. unfold handleInput.
  destruct (content render) as [c|]; cbn; [|done].
  destruct (isUndoRedoAction st); cbn; [done|].
  case_bool_decide as Hc; cbn; [done|].
  split; [|constructor]. apply Forall_app. split; [done|]. by constructor.
Qed.

Lemma push_if_truthy_clean (stack : list string) (c : option string) :
  Forall (λ s, s ≠ "") stack →
  Forall (λ s, s ≠ "")
    match c with
    | Some validContent =>
        if truthy (Some validContent) then stack ++ [validContent] else stack
    | None => stack
    end.
Proof.
  intros Hs. destruct c as [c|]; [|done]. cbn.
  case_bool_decide as Hc; cbn; [done|].
  apply Forall_app. split; [done|]. by constructor.
Qed.

End EditorActionFacts.

(** X26: after every handler.  Whatever the state before, after a local
    edit, an undo or a redo the suppression flag is down again and the
    content held by the component is the content shown by the element. *)
Theorem handler_postcondition (serialize : string → string)
    (a : EditorActions.Action) (st : Editor.t) :
  let st' := EditorActions.step serialize a st in
  Editor.isUndoRedoAction st' = false
  ∧ Editor.content st' = Some (Editor.innerHTML st').
Proof. destruct a; apply handleInput_post. Qed.

(** X27: the history never holds an empty snapshot.  From mounting on any
    document, through any sequence of edits, undos and redos, no entry
    of the undo stack or of the redo stack is the empty string. *)
Theorem history_holds_no_empty_snapshot (serialize : string → string)
    (docData_content : option string) (l : list EditorActions.Action) :
  let st := EditorActions.run serialize l
              (Editor.mount serialize docData_content) in
  Forall (λ s, s ≠ "") (Editor.undoStack st)
  ∧ Forall (λ s, s ≠ "") (Editor.redoStack st).
Proof.
  cbn. induction l as [|a l IH] using rev_ind.
  - cbn. unfold Editor.mount. destruct docData_content as [c|]; [|done].
    cbn. case_bool_decide as Hc; cbn; [done|]. split; [|done].
    by repeat constructor.
  - unfold EditorActions.run in *. rewrite foldl_app. cbn.
    destruct IH as [HU HR].
    set (st := foldl _ _ l) in *.
    destruct a as [newHTML| |]; unfold EditorActions.step.
    + unfold Editor.edit. by apply handleInput_clean.
    + unfold Editor.undo. apply handleInput_clean.
      * destruct (last (Editor.undoStack st)) as [p|]; [|done].
        destruct (Editor.truthy (Some p)); cbn; [|done].
        by apply removelast_Forall.
      * destruct (last (Editor.undoStack st)) as [p|]; [|done].
        destruct (Editor.truthy (Some p)); cbn;
          by apply push_if_truthy_clean.
    + unfold Editor.redo. apply handleInput_clean.
      * destruct (last (Editor.redoStack st)) as [p|]; [|done].
        destruct (Editor.truthy (Some p)); cbn;
          by apply push_if_truthy_clean.
      * destruct (last (Editor.redoStack st)) as [p|]; [|done].
        destruct (Editor.truthy (Some p)); cbn; [|done].
        by apply removelast_Forall.
Qed.

(** X28: undo with nothing to undo is not a no-op.  With an empty undo
    stack, the flag down and a non-empty content, [handleFormat('undo')]
    still runs [handleInput]: the current content is pushed on the undo
    stack and the redo stack is emptied. *)
Theorem undo_on_empty_stack (serialize : string → string)
    (st : Editor.t) (c : string) :
  Editor.undoStack st = [] →
  Editor.isUndoRedoAction st = false →
  Editor.content st = Some c →
  c ≠ "" →
  Editor.undo serialize st
  = Editor.mk (Some (Editor.innerHTML st)) [c] [] false (Editor.innerHTML st).
Proof.
  intros HU Hflag Hc Hne. unfold Editor.undo, Editor.handleInput.
  rewrite HU. cbn. rewrite Hc, Hflag, HU. cbn.
  by rewrite bool_decide_eq_false_2.
Qed.

Lemma undo_on_empty_stack_witness :
  let serialize := EditorActions.read_back in
  let st := Editor.undo serialize (Editor.mount serialize (Some "a")) in
  Editor.undoStack st = []
  ∧ Editor.undo serialize st = Editor.mk (Some "a") ["a"] [] false "a".
Proof.
  intros serialize st. split; [reflexivity|].
  apply (undo_on_empty_stack serialize st "a"); [reflexivity..|done].
Defined.

(** X29: the first undo after opening a document.  Mounting on a
    non-empty document already enables undo (the stack is seeded with
    the content); that first undo assigns the content to the element
    again and takes as content what the element reads back, which is
    the element's serialisation of the content and not always the
    content itself; it empties the undo stack and puts the content the
    document was opened with on the redo stack. *)
Theorem first_undo_after_mount (serialize : string → string) (c : string) :
  c ≠ "" →
  let st := Editor.mount serialize (Some c) in
  Editor.canUndo st = true
  ∧ Editor.undo serialize st
    = Editor.mk (Some (serialize c)) [] [c] false (serialize c)
  ∧ Editor.canUndo (Editor.undo serialize st) = false
  ∧ Editor.canRedo (Editor.undo serialize st) = true.
Proof.
  intros Hc st.
  assert (st = Editor.mk (Some c) [c] [] false (serialize c)) as ->.
  { unfold st, Editor.mount, Editor.truthy.
    by rewrite bool_decide_eq_false_2. }
  assert (Editor.undo serialize (Editor.mk (Some c) [c] [] false (serialize c))
          = Editor.mk (Some (serialize c)) [] [c] false (serialize c)) as ->.
  { unfold Editor.undo, Editor.handleInput. cbn.
    by rewrite !bool_decide_eq_false_2. }
  done.
Qed.

Lemma first_undo_after_mount_witness :
  let serialize := EditorActions.read_back in
  "<b>x" ≠ ""
  ∧ Editor.undo serialize (Editor.mount serialize (Some "<b>x"))
    = Editor.mk (Some "<b>x</b>") [] ["<b>x"] false "<b>x</b>".
Proof.
  intros serialize. split; [done|].
  destruct (first_undo_after_mount serialize "<b>x") as (_ & H & _);
    [done|]. exact H.
Defined.

Section UndoRedoRuns.
Import Editor EditorActions.

Variable serialize : string → string.

(** Below, a snapshot is required to be non-empty and to be read back by
    the element as it was assigned. *)

Lemma undo_settled (U R : list string) (p c : string) :
  p ≠ "" ∧ serialize p = p → c ≠ "" →
  undo serialize (settled (U ++ [p]) c R) = settled U p (R ++ [c]).
Proof.
  intros [Hp Hfix] Hc. unfold undo, handleInput, settled. cbn.
  rewrite last_snoc, removelast_last. cbn.
  by rewrite !bool_decide_eq_false_2, Hfix.
Qed.

Lemma redo_settled (U R : list string) (n c : string) :
  n ≠ "" ∧ serialize n = n → c ≠ "" →
  redo serialize (settled U c (R ++ [n])) = settled (U ++ [c]) n R.
Proof.
  intros [Hn Hfix] Hc. unfold redo, handleInput, settled. cbn.
  rewrite last_snoc, removelast_last. cbn.
  by rewrite !bool_decide_eq_false_2, Hfix.
Qed.

Lemma edit_settled (U R : list string) (c x : string) :
  c ≠ "" → edit x (settled U c R) = settled (U ++ [c]) x [].
Proof.
  intros Hc. unfold edit, handleInput, settled. cbn.
  by rewrite bool_decide_eq_false_2.
Qed.

Lemma last_cons_default (l : list string) (x c : string) :
  List.last (x :: l) c = List.last l x.
Proof.
  revert x c. induction l as [|y l IH]; intros x c; [done|].
  change (List.last (x :: y :: l) c) with (List.last (y :: l) c).
  by rewrite (IH y c), (IH y x).
Qed.

Lemma edits_settled (l : list string) (U : list string) (c : string) :
  Forall (λ s, s ≠ "") (c :: l) →
  edits l (settled U c [])
  = settled (U ++ removelast (c :: l)) (List.last l c) [].
Proof.
  revert U c. induction l as [|x l IH]; intros U c Hall.
  - cbn. by rewrite app_nil_r.
  - apply Forall_cons in Hall as [Hc Hall].
    change (edits (x :: l) (settled U c []))
      with (edits l (edit x (settled U c []))).
    rewrite edit_settled by done. rewrite IH by done.
    change (removelast (c :: x :: l)) with (c :: removelast (x :: l)).
    rewrite <- app_assoc. cbn [app]. by rewrite last_cons_default.
Qed.

(** [k] undos walk back through the last [k] snapshots. *)
Lemma undo_iter (ys U R : list string) (c : string) :
  Forall (λ s, s ≠ "" ∧ serialize s = s) (ys ++ [c]) →
  Nat.iter (length ys) (undo serialize) (settled (U ++ ys) c R)
  = settled U (List.hd c ys) (R ++ rev (List.tl (ys ++ [c]))).
Proof.
  revert c R. induction ys as [|y ys IH] using rev_ind; intros c R Hall.
  - cbn. by rewrite !app_nil_r.
  - apply Forall_app in Hall as [Hys Hc].
    apply Forall_app in Hys as [Hys Hy].
    rewrite Forall_singleton in Hc. rewrite Forall_singleton in Hy.
    rewrite length_app, Nat.add_comm. cbn [length Nat.add].
    rewrite Nat.iter_succ_r, app_assoc, undo_settled by (done || apply Hc).
    assert (Forall (λ s, s ≠ "" ∧ serialize s = s) (ys ++ [y])) as Hall'.
    { apply Forall_app. split; [exact Hys | by apply Forall_singleton]. }
    rewrite (IH y (R ++ [c]) Hall').
    f_equal.
    + by destruct ys.
    + rewrite <- app_assoc. f_equal.
      destruct ys as [|z ys]; [done|]. cbn [app List.tl].
      symmetry. apply rev_unit.
Qed.

(** [k] redos walk forward again. *)
Lemma redo_iter (ys U R : list string) (c : string) :
  Forall (λ s, s ≠ "" ∧ serialize s = s) (ys ++ [c]) →
  Nat.iter (length ys) (redo serialize)
    (settled U (List.hd c ys) (R ++ rev (List.tl (ys ++ [c]))))
  = settled (U ++ ys) c R.
Proof.
  revert U. induction ys as [|y ys IH]; intros U Hall.
  - cbn. by rewrite !app_nil_r.
  - cbn [app] in Hall. apply Forall_cons in Hall as [Hy Hall].
    cbn [length List.hd app List.tl].
    rewrite Nat.iter_succ_r.
    assert (rev (ys ++ [c])
            = rev (List.tl (ys ++ [c])) ++ [List.hd c ys]) as ->.
    { destruct ys as [|z ys]; [done|]. cbn [app List.tl List.hd].
      by cbn. }
    rewrite app_assoc, redo_settled.
    + rewrite IH by done. by rewrite <- app_assoc.
    + destruct ys as [|z ys]; cbn in Hall |- *;
        by apply Forall_cons in Hall as [? _].
    + apply Hy.
Qed.

End UndoRedoRuns.

(** X30: undoing and redoing a whole session.  After [n] local edits of a
    non-empty document, where the content the document was opened with
    and the content after each edit are non-empty and in the element's
    own serialised form (the element reads them back as assigned), [n]
    undos bring back the content the document was opened with, and [n]
    redos after them bring back the state the edits had reached:
    content, both stacks and the flag. *)
Theorem undo_all_then_redo_all (serialize : string → string)
    (c0 : string) (l : list string) :
  Forall (λ s, s ≠ "" ∧ serialize s = s) (c0 :: l) →
  let st := Editor.edits l (Editor.mount serialize (Some c0)) in
  let n := length l in
  Editor.content (Nat.iter n (Editor.undo serialize) st) = Some c0
  ∧ Nat.iter n (Editor.redo serialize) (Nat.iter n (Editor.undo serialize) st)
    = st.
Proof.
  intros Hall st n.
  assert (c0 ≠ "" ∧ serialize c0 = c0) as [Hc0 Hfix0]
    by (by apply Forall_cons in Hall as [? _]).
  assert (Forall (λ s, s ≠ "") (c0 :: l)) as Hne.
  { eapply Forall_impl; [exact Hall|]. by intros s [? _]. }
  assert (Editor.mount serialize (Some c0)
          = EditorActions.settled [c0] c0 []) as Hm.
  { unfold Editor.mount, Editor.truthy, EditorActions.settled.
    by rewrite bool_decide_eq_false_2, Hfix0. }
  assert (removelast (c0 :: l) ++ [List.last l c0] = c0 :: l) as Hsplit.
  { clear. revert c0. induction l as [|x l IH]; intros c0; [done|].
    change (removelast (c0 :: x :: l)) with (c0 :: removelast (x :: l)).
    cbn [app]. f_equal. rewrite last_cons_default. apply IH. }
  assert (length (removelast (c0 :: l)) = n) as Hlen.
  { apply (f_equal length) in Hsplit. rewrite length_app in Hsplit.
    change (length [List.last l c0]) with 1 in Hsplit.
    change (length (c0 :: l)) with (S (length l)) in Hsplit.
    unfold n. lia. }
  assert (List.hd (List.last l c0) (removelast (c0 :: l)) = c0) as Hhd.
  { by destruct l. }
  assert (st = EditorActions.settled ([c0] ++ removelast (c0 :: l))
                 (List.last l c0) []) as Hst.
  { unfold st. rewrite Hm. by apply edits_settled. }
  rewrite Hst, <- Hlen.
  rewrite (undo_iter serialize (removelast (c0 :: l)) [c0] []
             (List.last l c0))
    by (by rewrite Hsplit).
  split; [unfold EditorActions.settled; cbn [Editor.content];
          by rewrite Hhd|].
  by rewrite (redo_iter serialize (removelast (c0 :: l)) [c0] []
                (List.last l c0))
    by (by rewrite Hsplit).
Qed.

Lemma undo_all_then_redo_all_witness :
  let serialize := EditorActions.read_back in
  Forall (λ s, s ≠ "" ∧ serialize s = s) ["a"; "ab"; "abc"]
  ∧ Editor.content
      (Nat.iter 2 (Editor.undo serialize)
         (Editor.edits ["ab"; "abc"] (Editor.mount serialize (Some "a"))))
    = Some "a".
Proof.
  intros serialize.
  assert (Forall (λ s, s ≠ "" ∧ serialize s = s) ["a"; "ab"; "abc"]) as Hall
    by (repeat constructor; done).
  split; [done|].
  exact (proj1 (undo_all_then_redo_all serialize "a" ["ab"; "abc"] Hall)).
Defined.

(** Why the contents have to be in serialised form: opened on ["<b>x"]
    and edited once, the undo brings back ["<b>x</b>"] and the redo
    rebuilds an undo stack that holds it. *)
Example undo_all_then_redo_all_reserialises_markup :
  let serialize := EditorActions.read_back in
  let st := Editor.edits ["ab"] (Editor.mount serialize (Some "<b>x")) in
  Editor.undoStack st = ["<b>x"; "<b>x"]
  ∧ Editor.content (Editor.undo serialize st) = Some "<b>x</b>"
  ∧ Editor.undoStack (Editor.redo serialize (Editor.undo serialize st))
    = ["<b>x"; "<b>x</b>"].
Proof. vm_compute. repeat split; reflexivity. Qed.

(** * Instances of the properties above on the example deployment *)

Lemma unauthenticated_message_rejected_witness :
  let st := Server.init Scenario.all_open Scenario.store in
  Server.clientInfo st !! 0 = None
  ∧ onMessage 0 (Parsed (document_edit 1 "X" None)) st
    = Server.mk [] ∅ Scenario.all_open Scenario.store
        [Send 0 (error "Not authenticated")].
Proof.
  intros st. split; [reflexivity|].
  apply (unauthenticated_message_rejected st 0 (document_edit 1 "X" None));
    [reflexivity | left; eauto].
Defined.

Lemma auth_registers_session_witness :
  let st := Server.init Scenario.all_open Scenario.store in
  getUser (Server.storage st) 2 = Resolved (Some Scenario.bob)
  ∧ getDocument (Server.storage st) 1 = Resolved (Some Scenario.notes)
  ∧ isCollaborator (Server.storage st) 2 1
  ∧ Server.clients (onMessage 4 (Parsed (auth 2 1)) st) = [Client.mk 2 1 4].
Proof.
  intros st.
  assert (isCollaborator (Server.storage st) 2 1) as Hcol.
  { exists [(Collaborator.mk 1 1 2 "viewer", Scenario.bob)].
    split; [reflexivity|]. by constructor. }
  split; [reflexivity|]. split; [reflexivity|]. split; [done|].
  apply (auth_registers_session st 4 2 1 Scenario.bob Scenario.notes);
    [reflexivity | reflexivity | by right].
Defined.

Lemma message_delivery_witness :
  let st := Scenario.two_participants in
  let e := Send 1 (document_update 1 "X" 1 None) in
  e ∈ emitted st (onMessage 0 (Parsed (document_edit 1 "X" None)) st)
  ∧ ∃ client, client ∈ Server.clients st ∧ Client.ws client = 1
              ∧ Server.readyState st 1 = OPEN.
Proof.
  intros st e.
  assert (e ∈ emitted st (onMessage 0 (Parsed (document_edit 1 "X" None)) st))
    as Hin.
  { apply elem_of_cons. right. apply elem_of_cons. by left. }
  split; [done|].
  destruct (message_delivery st 0 (Parsed (document_edit 1 "X" None)) e Hin)
    as [Heq|Hclient]; [discriminate Heq | exact Hclient].
Defined.

Lemma cursor_position_relayed_witness :
  let st := Scenario.two_participants in
  Server.clientInfo st !! 0 = Some (Client.mk 1 1 0)
  ∧ emitted st (onMessage 0 (Parsed (cursor_position "{}")) st)
    = [Send 1 (cursor_update 1 "alice" "Alice" "{}")].
Proof.
  intros st. split; [reflexivity|].
  destruct (cursor_position_relayed st 0 (Client.mk 1 1 0) "{}")
    as (_ & _ & _ & Htr); [reflexivity|].
  exact Htr.
Defined.

Lemma edit_stays_on_document_witness :
  let st := Scenario.two_participants in
  5 ≠ 0
  ∧ sent_to 5 (emitted st (onMessage 0 (Parsed (document_edit 1 "X" None)) st))
    = [].
Proof.
  intros st. split; [done|].
  apply (edit_stays_on_document st 0 5 1 "X" None); [done|].
  intros client Hin Hws.
  apply elem_of_cons in Hin as [->|Hin]; [done|].
  apply elem_of_cons in Hin as [->|Hin]; [done|].
  by apply elem_of_nil in Hin.
Defined.

Lemma close_removes_own_tuple_witness :
  let st := Scenario.two_participants in
  Server.clientInfo st !! 0 = Some (Client.mk 1 1 0)
  ∧ Server.clients st = [] ++ Client.mk 1 1 0 :: [Client.mk 2 1 1]
  ∧ Server.clients (onClose 0 st) = [Client.mk 2 1 1].
Proof.
  intros st. split; [reflexivity|]. split; [reflexivity|].
  apply (close_removes_own_tuple st 0 (Client.mk 1 1 0) [] [Client.mk 2 1 1]);
    [reflexivity | reflexivity | constructor].
Defined.

Lemma close_is_idempotent_witness :
  let st := Scenario.two_participants in
  Server.clientInfo st !! 0 = Some (Client.mk 1 1 0)
  ∧ onClose 0 (onClose 0 st) = onClose 0 st.
Proof.
  intros st. split; [reflexivity|].
  apply (close_is_idempotent st 0 (Client.mk 1 1 0) [] [Client.mk 2 1 1]);
    [reflexivity | reflexivity |].
  repeat constructor. cbn. intros [Hu _]. discriminate Hu.
Defined.

Lemma auth_then_close_restores_registry_witness :
  let st := Server.init Scenario.all_open Scenario.store in
  getUser (Server.storage st) 1 = Resolved (Some Scenario.alice)
  ∧ Server.clients (onClose 0 (onMessage 0 (Parsed (auth 1 1)) st))
    = Server.clients st.
Proof.
  intros st. split; [reflexivity|].
  apply (auth_then_close_restores_registry st 0 1 1 Scenario.alice
           Scenario.notes); [reflexivity | reflexivity | by left | constructor].
Defined.

Lemma patch_writes_only_when_allowed_witness :
  let body := DocumentUpdate.mk None (Some "X") in
  (Routes.patchDocument (Some Scenario.alice) (Some 1%Z) body
     Scenario.store).1 ≠ Scenario.store
  ∧ ∃ user d document,
      Some Scenario.alice = Some user ∧ Some 1%Z = Some d
      ∧ getDocument Scenario.store d = Resolved (Some document).
Proof.
  intros body.
  assert ((Routes.patchDocument (Some Scenario.alice) (Some 1%Z) body
             Scenario.store).1 ≠ Scenario.store) as Hne.
  { intros Heq.
    apply (f_equal (λ s, Document.content
                           <$> MemStorage.documents s !! 1%Z)) in Heq.
    vm_compute in Heq. discriminate Heq. }
  split; [done|].
  destruct (patch_writes_only_when_allowed (Some Scenario.alice) (Some 1%Z)
              body Scenario.store Hne)
    as (user & d & document & Hu & Hd & Hdoc & _).
  by exists user, d, document.
Defined.

Lemma patch_refuses_viewer_witness :
  getDocument Scenario.store 1 = Resolved (Some Scenario.notes)
  ∧ Document.ownerId Scenario.notes ≠ User.id Scenario.bob
  ∧ Routes.patchDocument (Some Scenario.bob) (Some 1%Z)
      (DocumentUpdate.mk None (Some "X")) Scenario.store
    = (Scenario.store,
       Routes.json_message 403 "No permission to edit this document").
Proof.
  split; [reflexivity|]. split; [done|].
  apply (patch_refuses_viewer Scenario.bob 1 Scenario.notes
           [(Collaborator.mk 1 1 2 "viewer", Scenario.bob)]);
    [reflexivity | done | reflexivity | reflexivity].
Defined.

Lemma delete_route_only_owner_witness :
  (Api.deleteDocumentRoute (Some Scenario.alice) (Some 1%Z)
     Scenario.store).1 ≠ Scenario.store
  ∧ ∃ user d document,
      Some Scenario.alice = Some user ∧ Some 1%Z = Some d
      ∧ getDocument Scenario.store d = Resolved (Some document)
      ∧ Document.ownerId document = User.id user.
Proof.
  assert ((Api.deleteDocumentRoute (Some Scenario.alice) (Some 1%Z)
             Scenario.store).1 ≠ Scenario.store) as Hne.
  { intros Heq.
    apply (f_equal (λ s, Document.content
                           <$> MemStorage.documents s !! 1%Z)) in Heq.
    vm_compute in Heq. discriminate Heq. }
  split; [done|].
  destruct (delete_route_only_owner (Some Scenario.alice) (Some 1%Z)
              Scenario.store Hne)
    as (user & d & document & Hu & Hd & Hdoc & Hown & _).
  by exists user, d, document.
Defined.

Lemma grant_routes_only_owner_witness :
  (Api.patchCollaboratorRoute (Some Scenario.alice) (Some 1%Z)
     (Some "editor") Scenario.store).1 ≠ Scenario.store
  ∧ ∃ user id, Some Scenario.alice = Some user ∧ Some 1%Z = Some id.
Proof.
  assert ((Api.patchCollaboratorRoute (Some Scenario.alice) (Some 1%Z)
             (Some "editor") Scenario.store).1 ≠ Scenario.store) as Hne.
  { intros Heq.
    apply (f_equal (λ s, Collaborator.role
                           <$> MemStorage.collaborators s)) in Heq.
    vm_compute in Heq. discriminate Heq. }
  split; [done|].
  destruct (grant_routes_only_owner (Some Scenario.alice) (Some 1%Z)
              (Some "editor") Scenario.store (or_introl Hne))
    as (user & id & grants & i & grant & document & Hu & Hid & _).
  by exists user, id.
Defined.

Lemma read_access_is_subscription_access_witness :
  let st := Server.init Scenario.all_open Scenario.store in
  getDocument (Server.storage st) 1 = Resolved (Some Scenario.notes)
  ∧ (Api.getDocumentRoute (Some Scenario.carol) (Some 1%Z) (Server.storage st)
     = Api.message 403 "No permission to access this document"
     ∧ Server.clients (onMessage 0 (Parsed (auth 3 1)) st) = Server.clients st).
Proof.
  intros st. split; [reflexivity|].
  destruct (read_access_is_subscription_access st 0 Scenario.carol
              Scenario.carol 1 Scenario.notes
              [(Collaborator.mk 1 1 2 "viewer", Scenario.bob)])
    as [[Hyes _]|Hno]; [reflexivity | reflexivity | reflexivity | | exact Hno].
  vm_compute in Hyes. discriminate Hyes.
Defined.
